(** * paycare: the salary ETL pipeline of [etl.py]

    [etl.py] reads a CSV file into a pandas DataFrame, drops the rows with a
    missing cell, derives the columns [tax] and [net_salary] from [salary]
    and writes the result to a new CSV file.

    The development has three layers:
    - the pandas operations the pipeline calls ([dropna], [__getitem__],
      [__setitem__], Series arithmetic), as pure functions on a column-major
      frame with typed columns and IEEE binary64 floats;
    - the three stage functions, the driver and the main block, as
      programs of a small state-and-exception monad over a world made of
      the Python object store, the file system and standard output;
    - the properties of the transform stage and of the driver.

    pandas is a library, not part of the repository; its operations are
    modelled after its behaviour on the frames [pd.read_csv] builds:
    unique column labels, columns as long as the index, dtypes [int64],
    [float64] and [object].  [pd.read_csv] and [DataFrame.to_csv]
    themselves stay abstract: the driver is parametrised by them. *)

From Stdlib Require Import ZArith Lia.
From Stdlib Require Import PrimFloat.
From Stdlib Require SpecFloat FloatOps.
From stdpp Require Import base option list strings gmap.

Local Open Scope Z_scope.
Local Open Scope nat_scope.

(** ** Cell values and columns *)

(** int64 -> float64 conversion (round to nearest, ties to even); also
    Python's [float(int)] on the integers it accepts. *)
Definition float_of_Z (z : Z) : float :=
  FloatOps.SF2Prim
    (SpecFloat.binary_normalize FloatOps.prec FloatOps.emax z 0 false).

(** The literal [0.1] of the source: the binary64 value nearest to 1/10. *)
Definition TAX_RATE : float := 0x1.999999999999ap-4%float.

(** A Python object stored in an [object] column. *)
Inductive pyobj :=
  | PStr (s : string)
  | PInt (z : Z)
  | PFloat (f : float)
  | PNone.

(** A column is a homogeneous array tagged by its dtype. *)
Inductive column :=
  | Int64 (xs : list Z)
  | Float64 (xs : list float)
  | Object (xs : list pyobj).

(** A DataFrame: the row labels and the named columns, in order.  The
    columns are meant to have unique labels and the length of the index
    (see [wf_frame]); [pd.read_csv] only builds such frames. *)
Record DataFrame := {
  index : list Z;
  columns : list (string * column)
}.

Definition nrows (df : DataFrame) : nat := length (index df).
Definition names (df : DataFrame) : list string := map fst (columns df).

Definition col_length (c : column) : nat :=
  match c with
  | Int64 xs => length xs
  | Float64 xs => length xs
  | Object xs => length xs
  end.

(** The values of a column as Python objects ([Series.tolist()]). *)
Definition box (c : column) : list pyobj :=
  match c with
  | Int64 xs => map PInt xs
  | Float64 xs => map PFloat xs
  | Object xs => xs
  end.

Definition wf_frame (df : DataFrame) : Prop :=
  NoDup (names df) ∧
  Forall (λ nc, col_length nc.2 = nrows df) (columns df).

(** ** Missing values and [dropna] *)

(** [pd.isna] on a scalar: [None] and NaN are missing. *)
Definition isna (o : pyobj) : bool :=
  match o with
  | PNone => true
  | PFloat f => PrimFloat.is_nan f
  | _ => false
  end.

(** [Series.notna()]: an int64 column has no missing marker. *)
Definition notna (c : column) : list bool :=
  match c with
  | Int64 xs => map (λ _, true) xs
  | Float64 xs => map (λ f, negb (PrimFloat.is_nan f)) xs
  | Object xs => map (λ o, negb (isna o)) xs
  end.

(** [notna(df).all(axis=1)]: row [i] is kept when every column is present
    at [i]; with no column at all every row is kept. *)
Definition all_axis1 (n : nat) (masks : list (list bool)) : list bool :=
  foldr (zip_with andb) (replicate n true) masks.

Definition dropna_mask (df : DataFrame) : list bool :=
  all_axis1 (nrows df) (map (λ nc, notna nc.2) (columns df)).

(** Boolean indexing, [xs[mask]]. *)
Fixpoint select {A} (mask : list bool) (xs : list A) : list A :=
  match mask, xs with
  | b :: mask', x :: xs' =>
      if b then x :: select mask' xs' else select mask' xs'
  | _, _ => []
  end.

Definition select_col (mask : list bool) (c : column) : column :=
  match c with
  | Int64 xs => Int64 (select mask xs)
  | Float64 xs => Float64 (select mask xs)
  | Object xs => Object (select mask xs)
  end.

(** [df.dropna()] with its defaults ([axis=0], [how='any']): a new frame
    with the rows of [df] that have no missing cell; the surviving rows
    keep their labels. *)
Definition dropna (df : DataFrame) : DataFrame :=
  let mask := dropna_mask df in
  {| index := select mask (index df);
     columns := map (λ nc, (nc.1, select_col mask nc.2)) (columns df) |}.

(** ** Exceptions *)

Inductive exn :=
  | KeyError (key : string)
  | TypeError (msg : string)
  | OverflowError (msg : string)
  | FileNotFoundError (path : string)
  | ParserError (msg : string)
  | OSError (msg : string)
  | SystemError.

Definition str_exn (e : exn) : string :=
  match e with
  | KeyError key => "'" +:+ key +:+ "'"
  | TypeError msg => msg
  | OverflowError msg => msg
  | FileNotFoundError path =>
      "[Errno 2] No such file or directory: '" +:+ path +:+ "'"
  | ParserError msg => msg
  | OSError msg => msg
  | SystemError => "SystemError"
  end.

Inductive result (A : Type) :=
  | Ok (a : A)
  | Raise (e : exn).
Arguments Ok {A} a.
Arguments Raise {A} e.

Definition rbind {A B} (r : result A) (k : A → result B) : result B :=
  match r with
  | Ok a => k a
  | Raise e => Raise e
  end.

(** ** Column access and assignment *)

Fixpoint lookup_col (key : string) (cs : list (string * column)) : option column :=
  match cs with
  | [] => None
  | (k, c) :: cs' => if String.eqb k key then Some c else lookup_col key cs'
  end.

(** [df[key]] *)
Definition getitem (df : DataFrame) (key : string) : result column :=
  match lookup_col key (columns df) with
  | Some c => Ok c
  | None => Raise (KeyError key)
  end.

Fixpoint set_col (key : string) (v : column) (cs : list (string * column))
  : list (string * column) :=
  match cs with
  | [] => [(key, v)]
  | (k, c) :: cs' =>
      if String.eqb k key then (k, v) :: cs' else (k, c) :: set_col key v cs'
  end.

(** [df[key] = v] for a Series [v] that carries the index of [df]: an
    existing column is replaced where it stands, a new one is appended. *)
Definition setitem (df : DataFrame) (key : string) (v : column) : DataFrame :=
  {| index := index df; columns := set_col key v (columns df) |}.

(** ** Series arithmetic *)

Definition type_name (o : pyobj) : string :=
  match o with
  | PStr _ => "str"
  | PInt _ => "int"
  | PFloat _ => "float"
  | PNone => "NoneType"
  end.

Definition unsupported (op : string) (a b : string) : exn :=
  TypeError ("unsupported operand type(s) for " +:+ op +:+ ": '" +:+ a
             +:+ "' and '" +:+ b +:+ "'").

(** Python's [float(z)]: fails on an integer beyond the binary64 range. *)
Definition py_float (z : Z) : result float :=
  let f := float_of_Z z in
  if is_infinity f then Raise (OverflowError "int too large to convert to float")
  else Ok f.

(** [o * k] for a Python float [k]. *)
Definition py_mul (k : float) (o : pyobj) : result pyobj :=
  match o with
  | PStr _ => Raise (TypeError "can't multiply sequence by non-int of type 'float'")
  | PInt z => rbind (py_float z) (λ f, Ok (PFloat (f * k)%float))
  | PFloat f => Ok (PFloat (f * k)%float)
  | PNone => Raise (unsupported "*" "NoneType" "float")
  end.

(** [a - b] *)
Definition py_sub (a b : pyobj) : result pyobj :=
  match a, b with
  | PInt x, PInt y => Ok (PInt (x - y))
  | PInt x, PFloat g => rbind (py_float x) (λ f, Ok (PFloat (f - g)%float))
  | PFloat f, PInt y => rbind (py_float y) (λ g, Ok (PFloat (f - g)%float))
  | PFloat f, PFloat g => Ok (PFloat (f - g)%float)
  | _, _ => Raise (unsupported "-" (type_name a) (type_name b))
  end.

Fixpoint mapM {A B} (f : A → result B) (xs : list A) : result (list B) :=
  match xs with
  | [] => Ok []
  | x :: xs' => rbind (f x) (λ y, rbind (mapM f xs') (λ ys, Ok (y :: ys)))
  end.

(** On an [object] column pandas applies the operator to the cells that
    are present and puts NaN where an operand is missing. *)
Definition masked1 (op : pyobj → result pyobj) (o : pyobj) : result pyobj :=
  if isna o then Ok (PFloat nan) else op o.

Definition masked2 (op : pyobj → pyobj → result pyobj) (ab : pyobj * pyobj)
  : result pyobj :=
  if isna ab.1 || isna ab.2 then Ok (PFloat nan) else op ab.1 ab.2.

(** int64 arithmetic wraps around. *)
Definition wrap64 (z : Z) : Z := ((z + 2 ^ 63) mod 2 ^ 64 - 2 ^ 63)%Z.

(** [c * k] for a Series [c] and a Python float [k]; a numeric column is
    promoted to float64, an [object] column is multiplied cell by cell. *)
Definition mul_scalar (c : column) (k : float) : result column :=
  match c with
  | Int64 xs => Ok (Float64 (map (λ z, (float_of_Z z * k)%float) xs))
  | Float64 xs => Ok (Float64 (map (λ x, (x * k)%float) xs))
  | Object xs => rbind (mapM (masked1 (py_mul k)) xs) (λ ys, Ok (Object ys))
  end.

(** [a - b] for two Series that carry the same index (both are columns of
    one frame), hence cell by cell in position. *)
Definition sub_col (a b : column) : result column :=
  match a, b with
  | Int64 xs, Int64 ys => Ok (Int64 (zip_with (λ x y, wrap64 (x - y)) xs ys))
  | Int64 xs, Float64 ys =>
      Ok (Float64 (zip_with (λ x y, (float_of_Z x - y)%float) xs ys))
  | Float64 xs, Int64 ys =>
      Ok (Float64 (zip_with (λ x y, (x - float_of_Z y)%float) xs ys))
  | Float64 xs, Float64 ys =>
      Ok (Float64 (zip_with (λ x y, (x - y)%float) xs ys))
  | _, _ =>
      (* an object column on either side: Python's [-], cell by cell *)
      rbind (mapM (masked2 py_sub) (zip (box a) (box b))) (λ zs, Ok (Object zs))
  end.

(** ** The world and its monad *)

(** A reference to a DataFrame object. *)
Definition loc := nat.

Record world := {
  heap : list DataFrame;          (* the DataFrame objects, by reference *)
  fs : gmap string string;        (* the files, by path *)
  stdout : list string            (* the lines printed so far *)
}.

Definition M (A : Type) : Type := world → result A * world.

#[global] Instance M_ret : MRet M := λ A a w, (Ok a, w).
#[global] Instance M_bind : MBind M := λ A B k m w,
  match m w with
  | (Ok a, w') => k a w'
  | (Raise e, w') => (Raise e, w')
  end.

(** [try: body except Exception as e: handler e] *)
Definition try_except {A} (body : M A) (handler : exn → M A) : M A := λ w,
  match body w with
  | (Ok a, w') => (Ok a, w')
  | (Raise e, w') => handler e w'
  end.

Definition lift {A} (r : result A) : M A := λ w, (r, w).

Definition print (line : string) : M unit := λ w,
  (Ok (), {| heap := heap w; fs := fs w; stdout := stdout w ++ [line] |}).

(** A new object gets a fresh reference. *)
Definition new_frame (df : DataFrame) : M loc := λ w,
  (Ok (length (heap w)),
   {| heap := heap w ++ [df]; fs := fs w; stdout := stdout w |}).

Definition read_frame (l : loc) : M DataFrame := λ w,
  match heap w !! l with
  | Some df => (Ok df, w)
  | None => (Raise SystemError, w)
  end.

(** In-place update of the object behind a reference. *)
Definition update_frame (l : loc) (f : DataFrame → DataFrame) : M unit := λ w,
  match heap w !! l with
  | Some df =>
      (Ok (), {| heap := <[l := f df]> (heap w); fs := fs w; stdout := stdout w |})
  | None => (Raise SystemError, w)
  end.

(** [frame[key]] on the object behind [l]. *)
Definition getitem_at (l : loc) (key : string) : M column :=
  df ← read_frame l; lift (getitem df key).

(** [frame[key] = v] on the object behind [l]. *)
Definition setitem_at (l : loc) (key : string) (v : column) : M unit :=
  update_frame l (λ df, setitem df key v).

(** ** The transform stage *)

Definition transform_data (data : loc) : M (option loc) :=
  try_except
    (df ← read_frame data;
     data_cleaned ← new_frame (dropna df);
     salary ← getitem_at data_cleaned "salary";
     tax ← lift (mul_scalar salary TAX_RATE);
     setitem_at data_cleaned "tax" tax;;
     salary ← getitem_at data_cleaned "salary";
     tax ← getitem_at data_cleaned "tax";
     net_salary ← lift (sub_col salary tax);
     setitem_at data_cleaned "net_salary" net_salary;;
     print "Data transformation successful.";;
     mret (Some data_cleaned))
    (λ e,
     print ("Error in data transformation: " +:+ str_exn e);;
     mret None).

(** ** The transform stage as a function on frames *)

(** The two assignments of [transform_data], on the value of
    [data_cleaned]. *)
Definition derive (dc : DataFrame) : result DataFrame :=
  rbind (getitem dc "salary") (λ salary,
  rbind (mul_scalar salary TAX_RATE) (λ tax,
  let dc1 := setitem dc "tax" tax in
  rbind (getitem dc1 "salary") (λ salary,
  rbind (getitem dc1 "tax") (λ tax,
  rbind (sub_col salary tax) (λ net_salary,
  Ok (setitem dc1 "net_salary" net_salary)))))).

Definition transform_frame (df : DataFrame) : result DataFrame :=
  derive (dropna df).

Definition transform_line (r : result DataFrame) : string :=
  match r with
  | Ok _ => "Data transformation successful."
  | Raise e => "Error in data transformation: " +:+ str_exn e
  end.

Definition returned (r : result DataFrame) (l : loc) : option loc :=
  match r with
  | Ok _ => Some l
  | Raise _ => None
  end.

(** ** Extraction, loading and the driver *)

Section Pipeline.

(** [pd.read_csv] on the contents of a file, [DataFrame.to_csv] with
    [index=False], and the error raised when a path cannot be opened for
    writing ([None] when it can). *)
Variable read_csv : string → result DataFrame.
Variable to_csv : DataFrame → string.
Variable write_error : string → option exn.

Definition open_read (path : string) : M string := λ w,
  match fs w !! path with
  | Some content => (Ok content, w)
  | None => (Raise (FileNotFoundError path), w)
  end.

Definition write_file (path content : string) : M unit := λ w,
  match write_error path with
  | None =>
      (Ok (), {| heap := heap w; fs := <[path := content]> (fs w);
                 stdout := stdout w |})
  | Some e => (Raise e, w)
  end.

Definition extract_data (file_path : string) : M (option loc) :=
  try_except
    (content ← open_read file_path;
     df ← lift (read_csv content);
     data ← new_frame df;
     print "Data extraction successful.";;
     mret (Some data))
    (λ e,
     print ("Error in data extraction: " +:+ str_exn e);;
     mret None).

Definition load_data (data : loc) (output_file_path : string) : M unit :=
  try_except
    (df ← read_frame data;
     write_file output_file_path (to_csv df);;
     print ("Data loaded successfully to " +:+ output_file_path +:+ "."))
    (λ e, print ("Error in data loading: " +:+ str_exn e)).

Definition etl_process (input_file output_file : string) : M unit :=
  data ← extract_data input_file;
  match data with
  | Some data =>
      transformed_data ← transform_data data;
      match transformed_data with
      | Some transformed_data => load_data transformed_data output_file
      | None => mret ()
      end
  | None => mret ()
  end.

(** The files after a run of the driver. *)
Definition files_after (input_file output_file : string) (w : world)
  : gmap string string :=
match fs w !! input_file with
  | Some content =>
      match read_csv content with
      | Ok df =>
          match transform_frame df with
          | Ok out =>
              match write_error output_file with
              | None => <[output_file := to_csv out]> (fs w)
              | Some _ => fs w
              end
          | Raise _ => fs w
          end
      | Raise _ => fs w
      end
  | None => fs w
  end.

(** The line the load stage prints. *)
Definition load_line (output_file : string) : string :=
  match write_error output_file with
  | None => "Data loaded successfully to " +:+ output_file +:+ "."
  | Some e => "Error in data loading: " +:+ str_exn e
  end.

End Pipeline.

(** ** The entry point *)

(** [os.getenv(key, default)] *)
Definition getenv (environ : gmap string string) (key default_value : string)
  : string :=
  default default_value (environ !! key).



(** [os.path.exists]: a directory or a file is there. *)
Definition path_exists (dirs : gset string) (files : gmap string string)
    (path : string) : bool :=
  bool_decide (path ∈ dirs) || bool_decide (is_Some (files !! path)).

(** [output_dir and not os.path.exists(output_dir)] *)
Definition needs_makedirs (dirs : gset string) (files : gmap string string)
    (output_dir : string) : bool :=
  negb (String.eqb output_dir "") && negb (path_exists dirs files output_dir).

Section Main.

(** Besides the reader and the writer, the block under
    [if __name__ == "__main__"] uses [os.path.dirname] and [os.makedirs];
    whether a path can be written depends on the directories that exist. *)
Variable read_csv : string → result DataFrame.
Variable to_csv : DataFrame → string.
Variable write_error : gset string → string → option exn.
Variable dirname : string → string.
Variable makedirs : string → gset string → result unit * gset string.

(** The three notices, the run, the closing notice. *)
Definition main_run (dirs : gset string) (input_file output_file : string)
  : M unit :=
  print "🔄 Starting ETL process...";;
  print ("📂 Input file: " +:+ input_file);;
  print ("📂 Output file: " +:+ output_file);;
  etl_process read_csv to_csv (write_error dirs) input_file output_file;;
  print "✅ ETL process completed successfully!".

(** The main block, from the environment, the directories that exist and
    the world; an exception it returns is one that ends the process. *)
Definition main (environ : gmap string string) (dirs : gset string) (w : world)
  : result unit * (gset string * world) :=
  let input_file := getenv environ "INPUT_FILE" "data/input_data.csv" in
  let output_file := getenv environ "OUTPUT_FILE" "output/output_data.csv" in
  let output_dir := dirname output_file in
  let '(made, dirs') :=
    if needs_makedirs dirs (fs w) output_dir
    then makedirs output_dir dirs
    else (Ok (), dirs) in
  match made with
  | Ok _ =>
      let '(r, w') := main_run dirs' input_file output_file w in
      (r, (dirs', w'))
  | Raise e => (Raise e, (dirs', w))
  end.

End Main.

(** ** The tables of the test suite *)

Definition sample_dataframe : DataFrame :=
  {| index := [0; 1; 2]%Z;
     columns :=
       [("id", Int64 [1; 2; 3]%Z);
        ("name", Object [PStr "John"; PStr "Jane"; PStr "Bob"]);
        ("age", Int64 [28; 34; 45]%Z);
        ("city", Object [PStr "New York"; PStr "LA"; PStr "Chicago"]);
        ("salary", Int64 [70000; 80000; 90000]%Z)] |}.

(** The frame of [test_transform_data_with_missing_values]: [None] in a
    numeric column is stored as NaN and makes the column float64. *)
Definition missing_dataframe : DataFrame :=
  {| index := [0; 1; 2; 3]%Z;
     columns :=
       [("id", Int64 [1; 2; 3; 4]%Z);
        ("name", Object [PStr "John"; PStr "Jane"; PNone; PStr "Alice"]);
        ("age", Float64 [28; nan; 45; 29]%float);
        ("city", Object [PStr "New York"; PStr "LA"; PStr "Chicago"; PNone]);
        ("salary", Int64 [70000; 80000; 90000; 85000]%Z)] |}.

(** A frame that already has a [tax] column. *)
Definition taxed_dataframe : DataFrame :=
  {| index := [0; 1]%Z;
     columns := [("salary", Int64 [70000; 90000]%Z);
                 ("tax", Float64 [1; 2]%float)] |}.

(** What [pd.read_csv] makes of a [salary] column that holds [70000] and
    [abc]: an [object] column of strings. *)
Definition text_salary_dataframe : DataFrame :=
  {| index := [0; 1]%Z;
     columns := [("id", Int64 [1; 2]%Z);
                 ("salary", Object [PStr "70000"; PStr "abc"])] |}.

(** What [pd.read_csv] makes of a file with a header line only. *)
Definition header_only_dataframe : DataFrame :=
  {| index := [];
     columns := [("id", Object []); ("name", Object []); ("salary", Object [])] |}.

(** The frame of [test_transform_data_missing_salary_column]. *)
Definition no_salary_dataframe : DataFrame :=
  {| index := [0; 1]%Z;
     columns := [("id", Int64 [1; 2]%Z);
                 ("name", Object [PStr "John"; PStr "Jane"])] |}.

(** A salary beyond the binary64 range is read as infinity. *)
Definition infinite_salary_dataframe : DataFrame :=
  {| index := [0]%Z; columns := [("salary", Float64 [infinity])] |}.

(** [pd.DataFrame()], the frame of [test_transform_data_empty_dataframe]. *)
Definition empty_dataframe : DataFrame := {| index := []; columns := [] |}.

Definition world_with (df : DataFrame) : world :=
  {| heap := [df]; fs := ∅; stdout := [] |}.

(** The frame a call returned, read back from the object store. *)
Definition result_frame (rw : result (option loc) * world) : option DataFrame :=
  match rw.1 with
  | Ok (Some l) => heap rw.2 !! l
  | _ => None
  end.

(** ** Rows *)

(** The cell of column [key] at row position [i]. *)
Definition cell (df : DataFrame) (key : string) (i : nat) : option pyobj :=
  lookup_col key (columns df) ≫= λ c, box c !! i.

(** The number held by a numeric cell, as a binary64 float. *)
Definition as_float (o : pyobj) : float :=
  match o with
  | PInt z => float_of_Z z
  | PFloat f => f
  | _ => nan
  end.

Definition is_numeric (c : column) : bool :=
  match c with
  | Int64 _ | Float64 _ => true
  | Object _ => false
  end.

(** Row [i] has no missing cell in any column. *)
Definition present (df : DataFrame) (i : nat) : bool :=
  forallb (λ nc : string * column,
             match box nc.2 !! i with
             | Some o => negb (isna o)
             | None => false
             end) (columns df).

(** The positions of the complete rows, in increasing order. *)
Definition complete_rows (df : DataFrame) : list nat :=
  filter (λ i, present df i) (seq 0 (nrows df)).

(** The elements of [xs] at the given positions, in the order given. *)
Definition take_rows {A} (positions : list nat) (xs : list A) : list A :=
  omap (λ i, xs !! i) positions.

(** The world after a new object [x] was created. *)
Definition with_new (w : world) (x : DataFrame) : world :=
  {| heap := heap w ++ [x]; fs := fs w; stdout := stdout w |}.

(** ** Example files *)

(** A reader that knows the contents of two files, a writer that renders
    the header line, and a file system where only [out.csv] can be
    written: enough to run the driver on examples. *)
Definition two_files_read_csv (content : string) : result DataFrame :=
  if String.eqb content "sample" then Ok sample_dataframe
  else if String.eqb content "no salary" then Ok no_salary_dataframe
  else Raise (ParserError "No columns to parse from file").

Definition header_to_csv (df : DataFrame) : string :=
  String.concat "," (names df).

Definition only_out_writable (path : string) : option exn :=
  if String.eqb path "out.csv" then None
  else Some (OSError ("[Errno 13] Permission denied: '" +:+ path +:+ "'")).

Definition two_files_world : world :=
  {| heap := [];
     fs := {[ "in.csv" := "sample"; "bad.csv" := "no salary" ]};
     stdout := [] |}.

Abbreviation run_two_files :=
  (etl_process two_files_read_csv header_to_csv only_out_writable).

(** [os.path.dirname] on POSIX paths: the part before the last slash,
    without its trailing slashes unless it is made of slashes only. *)
Definition is_slash (c : Ascii.ascii) : bool :=
  String.eqb (String c EmptyString) "/".

Fixpoint drop_while {A} (f : A → bool) (l : list A) : list A :=
  match l with
  | [] => []
  | x :: l' => if f x then drop_while f l' else l
  end.

Definition posix_dirname (path : string) : string :=
  let rhead := drop_while (λ c, negb (is_slash c))
                 (rev (String.list_ascii_of_string path)) in
  if forallb is_slash rhead then String.string_of_list_ascii (rev rhead)
  else String.string_of_list_ascii (rev (drop_while is_slash rhead)).


Definition denied_makedirs (path : string) (dirs : gset string)
  : result unit * gset string :=
  (Raise (OSError ("[Errno 13] Permission denied: '" +:+ path +:+ "'")), dirs).

Definition needs_directory (dirs : gset string) (path : string) : option exn :=
  let dir := posix_dirname path in
  if String.eqb dir "" || bool_decide (dir ∈ dirs) then None
  else Some (OSError ("Cannot save file into a non-existent directory: '"
                      +:+ dir +:+ "'")).

(** What [transform_data] makes of [sample_dataframe]. *)
Definition sample_transformed : DataFrame :=
  {| index := [0; 1; 2]%Z;
     columns :=
       [("id", Int64 [1; 2; 3]%Z);
        ("name", Object [PStr "John"; PStr "Jane"; PStr "Bob"]);
        ("age", Int64 [28; 34; 45]%Z);
        ("city", Object [PStr "New York"; PStr "LA"; PStr "Chicago"]);
        ("salary", Int64 [70000; 80000; 90000]%Z);
        ("tax", Float64 [7000; 8000; 9000]%float);
        ("net_salary", Float64 [63000; 72000; 81000]%float)] |}.


Definition default_input_world : world :=
  {| heap := [];
     fs := {[ "data/input_data.csv" := "sample" ]};
     stdout := [] |}.

(** The dtype of a column. *)
Inductive dtype := int64 | float64 | object.

Definition dtype_of (c : column) : dtype :=
  match c with
  | Int64 _ => int64
  | Float64 _ => float64
  | Object _ => object
  end.

(** The dtype of [c * 0.1] and of [c - c * 0.1]. *)
Definition promoted (c : column) : dtype :=
  if is_numeric c then float64 else object.

(** A cell on which [* 0.1] works: a float, or an integer in the range
    of binary64. *)
Definition is_number (o : pyobj) : bool :=
  match o with
  | PFloat _ => true
  | PInt z => negb (is_infinity (float_of_Z z))
  | _ => false
  end.

(** A frame in which the only text salary sits in an incomplete row. *)
Definition dropped_text_dataframe : DataFrame :=
  {| index := [0]%Z;
     columns := [("age", Float64 [nan]); ("salary", Object [PStr "abc"])] |}.

(** ** Stepping the monad *)

Lemma getitem_at_new w x key :
  getitem_at (length (heap w)) key (with_new w x) = (getitem x key, with_new w x).
Proof.
  unfold getitem_at, read_frame, mbind, M_bind, lift; simpl.
  by rewrite list_lookup_middle.
Qed.

Lemma setitem_at_new w x key v :
  setitem_at (length (heap w)) key v (with_new w x)
  = (Ok (), with_new w (setitem x key v)).
Proof.
  unfold setitem_at, update_frame, with_new; simpl.
  rewrite list_lookup_middle by done.
  rewrite insert_app_r_alt by done.
  by rewrite Nat.sub_diag.
Qed.

Lemma transform_data_run w data df :
  heap w !! data = Some df →
  ∃ last,
    transform_data data w
    = (Ok (returned (transform_frame df) (length (heap w))),
       {| heap := heap w ++ [last]; fs := fs w;
          stdout := stdout w ++ [transform_line (transform_frame df)] |})
    ∧ ∀ out, transform_frame df = Ok out → last = out.
Proof.
  intros Hdf.
  unfold transform_data, try_except, mbind, M_bind, read_frame.
  rewrite Hdf. unfold new_frame.
  change {| heap := heap w ++ [dropna df]; fs := fs w; stdout := stdout w |}
    with (with_new w (dropna df)).
  unfold transform_frame, derive.
  rewrite getitem_at_new.
  destruct (getitem (dropna df) "salary") as [salary|e] eqn:Hs; simpl;
    [|eexists; split; [reflexivity|done]].
  destruct (mul_scalar salary TAX_RATE) as [tax|e] eqn:Ht; simpl;
    [|eexists; split; [reflexivity|done]].
  rewrite setitem_at_new, !getitem_at_new.
  destruct (getitem (setitem (dropna df) "tax" tax) "salary") as [salary'|e]; simpl;
    [|eexists; split; [reflexivity|done]].
  destruct (getitem (setitem (dropna df) "tax" tax) "tax") as [tax'|e]; simpl;
    [|eexists; split; [reflexivity|done]].
  destruct (sub_col salary' tax') as [net|e]; simpl;
    [|eexists; split; [reflexivity|done]].
  rewrite setitem_at_new. simpl.
  eexists; split; [reflexivity|]. by intros out [= <-].
Qed.

(** ** Lists, masks and boolean indexing *)

Section MapFacts.
Context {A B : Type}.

Lemma filter_fmap (P : B → Prop) `{!∀ y, Decision (P y)} (f : A → B) (l : list A) :
  filter P (f <$> l) = f <$> filter (P ∘ f) l.
Proof.
  induction l as [|a l IH]; [done|].
  rewrite fmap_cons, !filter_cons. simpl.
  destruct (decide (P (f a))); by rewrite IH.
Qed.

Lemma omap_fmap {C} (g : B → option C) (f : A → B) (l : list A) :
  omap g (f <$> l) = omap (g ∘ f) l.
Proof.
  induction l as [|a l IH]; [done|].
  csimpl. by rewrite IH.
Qed.

End MapFacts.

Section SelectFacts.
Context {A : Type}.

Lemma select_nil (mask : list bool) : select mask ([] : list A) = [].
Proof. by destruct mask. Qed.

(** Boolean indexing takes the positions where the mask is [True]. *)
Lemma select_take (mask : list bool) (xs : list A) :
  length mask = length xs →
  select mask xs
  = take_rows (filter (λ i, mask !! i = Some true) (seq 0 (length mask))) xs.
Proof.
  unfold take_rows.
  revert xs. induction mask as [|b mask IH]; intros [|x xs] Hlen;
    try done.
  simpl in Hlen. injection Hlen as Hlen.
  cbn [select length]. rewrite (IH xs Hlen).
  rewrite <- cons_seq, <- fmap_S_seq, filter_cons.
  destruct b.
  - rewrite decide_True by done. csimpl.
    by rewrite filter_fmap, omap_fmap.
  - rewrite decide_False by done.
    by rewrite filter_fmap, omap_fmap.
Qed.

Lemma length_select_same {C} (mask : list bool) (xs : list A) (ys : list C) :
  length xs = length ys →
  length (select mask xs) = length (select mask ys).
Proof.
  revert xs ys. induction mask as [|b mask IH]; intros [|x xs] [|y ys] Hlen;
    try done.
  injection Hlen as Hlen. destruct b; simpl; auto.
Qed.

End SelectFacts.

Lemma select_fmap {A B} (f : A → B) (mask : list bool) (xs : list A) :
  select mask (f <$> xs) = f <$> select mask xs.
Proof.
  revert xs. induction mask as [|b mask IH]; intros [|x xs]; try done.
  csimpl. destruct b; csimpl; by rewrite IH.
Qed.

Lemma filter_ext_in {A} (P Q : A → Prop)
    `{!∀ x, Decision (P x), !∀ x, Decision (Q x)} (l : list A) :
  (∀ x, x ∈ l → P x ↔ Q x) → filter P l = filter Q l.
Proof.
  induction l as [|a l IH]; intros HPQ; [done|].
  rewrite !filter_cons.
  assert (P a ↔ Q a) as Ha by (apply HPQ; left).
  rewrite IH by (intros x Hx; apply HPQ; by right).
  destruct (decide (P a)), (decide (Q a)); tauto.
Qed.

Lemma notna_box c : notna c = (λ o, negb (isna o)) <$> box c.
Proof.
  destruct c as [xs|xs|xs]; simpl; [| |done].
  - by rewrite <- list_fmap_compose.
  - by rewrite <- list_fmap_compose.
Qed.

Lemma length_box c : length (box c) = col_length c.
Proof. destruct c; simpl; by rewrite ?length_fmap. Qed.

Lemma box_select_col mask c : box (select_col mask c) = select mask (box c).
Proof. destruct c; simpl; by rewrite ?select_fmap. Qed.

Lemma length_all_axis1 n masks :
  Forall (λ m : list bool, length m = n) masks →
  length (all_axis1 n masks) = n.
Proof.
  unfold all_axis1. induction 1 as [|m masks Hm _ IH]; simpl.
  - apply length_replicate.
  - rewrite length_zip_with, IH, Hm. lia.
Qed.

Lemma lookup_all_axis1 n masks i :
  Forall (λ m : list bool, length m = n) masks →
  i < n →
  all_axis1 n masks !! i
  = Some (forallb (λ m : list bool, default false (m !! i)) masks).
Proof.
  intros Hlen Hi. unfold all_axis1.
  induction Hlen as [|m masks Hm _ IH]; simpl.
  - by apply lookup_replicate_2.
  - rewrite lookup_zip_with, IH.
    destruct (lookup_lt_is_Some_2 m i) as [b ->]; [lia|]. done.
Qed.

Section Dropna.
Variable df : DataFrame.
Hypothesis Hwf : wf_frame df.

Lemma masks_aligned :
  Forall (λ m : list bool, length m = nrows df)
         (map (λ nc : string * column, notna nc.2) (columns df)).
Proof.
  destruct Hwf as [_ Hal]. rewrite Forall_fmap.
  eapply Forall_impl; [exact Hal|]. intros [k c] Hc; simpl in *.
  by rewrite notna_box, length_fmap, length_box.
Qed.

Lemma length_dropna_mask : length (dropna_mask df) = nrows df.
Proof. apply length_all_axis1, masks_aligned. Qed.

Lemma lookup_dropna_mask i :
  i < nrows df → dropna_mask df !! i = Some (present df i).
Proof.
  intros Hi. unfold dropna_mask.
  rewrite lookup_all_axis1 by (done || apply masks_aligned).
  f_equal. unfold present.
  induction (columns df) as [|[k c] cs IH]; [done|].
  simpl. rewrite IH. f_equal.
  rewrite notna_box, list_lookup_fmap. by destruct (box c !! i).
Qed.

Lemma where_dropna_mask :
  filter (λ i, dropna_mask df !! i = Some true) (seq 0 (length (dropna_mask df)))
  = complete_rows df.
Proof.
  rewrite length_dropna_mask. unfold complete_rows.
  apply filter_ext_in. intros i [_ Hi]%elem_of_seq.
  rewrite lookup_dropna_mask by lia.
  destruct (present df i); simpl; split; (done || by intros [=]).
Qed.

(** [dropna] keeps the cells at the positions of the complete rows. *)
Lemma select_dropna {A} (xs : list A) :
  length xs = nrows df →
  select (dropna_mask df) xs = take_rows (complete_rows df) xs.
Proof.
  intros Hlen. rewrite select_take by (by rewrite length_dropna_mask).
  by rewrite where_dropna_mask.
Qed.

End Dropna.

(** ** Taking rows by position *)

Lemma lookup_take_rows {A} (ps : list nat) (xs : list A) j :
  Forall (λ i, i < length xs) ps →
  take_rows ps xs !! j = ps !! j ≫= λ i, xs !! i.
Proof.
  unfold take_rows. intros Hps. revert j.
  induction Hps as [|p ps Hp _ IH]; intros j; [done|].
  csimpl. destruct (lookup_lt_is_Some_2 xs p Hp) as [x Hx].
  rewrite Hx. destruct j as [|j]; csimpl; [by rewrite Hx|apply IH].
Qed.

Lemma length_take_rows {A} (ps : list nat) (xs : list A) :
  Forall (λ i, i < length xs) ps → length (take_rows ps xs) = length ps.
Proof.
  unfold take_rows. induction 1 as [|p ps Hp _ IH]; [done|].
  csimpl. destruct (lookup_lt_is_Some_2 xs p Hp) as [x ->].
  simpl. by rewrite IH.
Qed.

Lemma complete_rows_lt df n :
  nrows df = n → Forall (λ i, i < n) (complete_rows df).
Proof.
  intros <-. apply Forall_forall. intros i Hi.
  apply list_elem_of_filter in Hi as [_ Hi].
  apply elem_of_seq in Hi. lia.
Qed.


(** ** Column lookup and assignment *)

Lemma lookup_col_None key cs : lookup_col key cs = None ↔ key ∉ cs.*1.
Proof.
  induction cs as [|[k c] cs IH]; simpl.
  - split; [intros _; apply not_elem_of_nil|done].
  - rewrite not_elem_of_cons.
    destruct (String.eqb_spec k key) as [->|Hne].
    + split; [done|]. by intros [? _].
    + rewrite IH. split; [done|]. by intros [_ ?].
Qed.

Lemma lookup_col_elem_of key cs c : lookup_col key cs = Some c → (key, c) ∈ cs.
Proof.
  induction cs as [|[k c'] cs IH]; simpl; [done|].
  destruct (String.eqb_spec k key) as [->|Hne].
  - intros [= ->]. left.
  - intros H. right. auto.
Qed.

Lemma lookup_set_col_eq key v cs : lookup_col key (set_col key v cs) = Some v.
Proof.
  induction cs as [|[k c] cs IH]; simpl.
  - by rewrite String.eqb_refl.
  - destruct (String.eqb_spec k key) as [->|Hne]; simpl.
    + by rewrite String.eqb_refl.
    + by destruct (String.eqb_spec k key).
Qed.

Lemma lookup_set_col_ne key key' v cs :
  key ≠ key' → lookup_col key' (set_col key v cs) = lookup_col key' cs.
Proof.
  intros Hne. induction cs as [|[k c] cs IH]; simpl.
  - by destruct (String.eqb_spec key key').
  - destruct (String.eqb_spec k key) as [->|Hk]; simpl.
    + by destruct (String.eqb_spec key key').
    + by rewrite IH.
Qed.

(** Assignment keeps the labels in place and appends a label only when
    it is new. *)
Lemma names_set_col key v cs :
  (set_col key v cs).*1 = cs.*1 ++ filter (λ k, k ∉ cs.*1) [key].
Proof.
  induction cs as [|[k c] cs IH]; simpl.
  - rewrite filter_cons_True; [done|apply not_elem_of_nil].
  - destruct (String.eqb_spec k key) as [->|Hk]; csimpl.
    + rewrite filter_cons_False; [by rewrite app_nil_r|].
      intros Hn. apply Hn. left.
    + rewrite IH. f_equal. f_equal. apply filter_ext_in.
      intros x ->%list_elem_of_singleton.
      rewrite not_elem_of_cons. split; [|by intros [_ ?]].
      intros Hk'. split; [by intros ->|done].
Qed.

Lemma names_setitem df key v :
  names (setitem df key v) = names df ++ filter (λ k, k ∉ names df) [key].
Proof. apply names_set_col. Qed.

Lemma lookup_col_dropna key df :
  lookup_col key (columns (dropna df))
  = select_col (dropna_mask df) <$> lookup_col key (columns df).
Proof.
  unfold dropna; simpl. induction (columns df) as [|[k c] cs IH]; [done|].
  simpl. by destruct (String.eqb k key).
Qed.

Lemma names_dropna df : names (dropna df) = names df.
Proof.
  unfold names, dropna; simpl. rewrite <- list_fmap_compose.
  by apply list_fmap_ext.
Qed.

(** ** What [dropna] returns, row by row *)

Section DropnaRows.
Variable df : DataFrame.
Hypothesis Hwf : wf_frame df.

Lemma index_dropna :
  index (dropna df) = take_rows (complete_rows df) (index df).
Proof. unfold dropna; simpl. by apply select_dropna. Qed.

Lemma nrows_dropna : nrows (dropna df) = length (complete_rows df).
Proof.
  unfold nrows at 1. rewrite index_dropna.
  by apply length_take_rows, complete_rows_lt.
Qed.

Lemma col_aligned key c :
  lookup_col key (columns df) = Some c → length (box c) = nrows df.
Proof.
  intros Hc%lookup_col_elem_of. destruct Hwf as [_ Hal].
  rewrite Forall_forall in Hal. rewrite length_box. exact (Hal _ Hc).
Qed.

Lemma box_dropna_col key c :
  lookup_col key (columns df) = Some c →
  box (select_col (dropna_mask df) c) = take_rows (complete_rows df) (box c).
Proof.
  intros Hc. rewrite box_select_col.
  apply select_dropna; [done|by eapply col_aligned].
Qed.

Lemma cell_dropna key j :
  cell (dropna df) key j = complete_rows df !! j ≫= cell df key.
Proof.
  unfold cell. rewrite lookup_col_dropna.
  destruct (lookup_col key (columns df)) as [c|] eqn:Hc; csimpl.
  - rewrite (box_dropna_col key) by done.
    apply lookup_take_rows, complete_rows_lt.
    symmetry. by eapply col_aligned.
  - by destruct (complete_rows df !! j).
Qed.

End DropnaRows.

(** ** The two assignments *)

Lemma derive_inv dc out :
  derive dc = Ok out →
  ∃ salary tax net_salary,
    lookup_col "salary" (columns dc) = Some salary
    ∧ mul_scalar salary TAX_RATE = Ok tax
    ∧ sub_col salary tax = Ok net_salary
    ∧ out = setitem (setitem dc "tax" tax) "net_salary" net_salary.
Proof.
  unfold derive, getitem.
  destruct (lookup_col "salary" (columns dc)) as [salary|] eqn:Hs; [|done].
  simpl. destruct (mul_scalar salary TAX_RATE) as [tax|] eqn:Ht; [|done].
  simpl. rewrite lookup_set_col_ne, Hs, lookup_set_col_eq by done.
  simpl. destruct (sub_col salary tax) as [net|] eqn:Hn; [|done].
  simpl. intros [= <-]. by exists salary, tax, net.
Qed.

Lemma derive_intro dc salary tax net_salary :
  lookup_col "salary" (columns dc) = Some salary →
  mul_scalar salary TAX_RATE = Ok tax →
  sub_col salary tax = Ok net_salary →
  derive dc = Ok (setitem (setitem dc "tax" tax) "net_salary" net_salary).
Proof.
  intros Hs Ht Hn. unfold derive, getitem. rewrite Hs. simpl.
  rewrite Ht. simpl.
  rewrite lookup_set_col_ne, Hs, lookup_set_col_eq by done.
  simpl. by rewrite Hn.
Qed.

Lemma derive_no_salary dc :
  lookup_col "salary" (columns dc) = None → derive dc = Raise (KeyError "salary").
Proof. intros Hs. unfold derive, getitem. by rewrite Hs. Qed.


Lemma cell_setitem_ne df key key' v i :
  key ≠ key' → cell (setitem df key v) key' i = cell df key' i.
Proof. intros Hne. unfold cell; simpl. by rewrite lookup_set_col_ne. Qed.

(** ** Running [transform_data] *)

Lemma transform_data_returns w data df :
  heap w !! data = Some df →
  (transform_data data w).1
  = Ok (returned (transform_frame df) (length (heap w))).
Proof.
  intros Hdf. destruct (transform_data_run w data df Hdf) as (last & -> & _).
  done.
Qed.

Lemma transform_data_frame w data df out :
  heap w !! data = Some df →
  transform_frame df = Ok out →
  result_frame (transform_data data w) = Some out.
Proof.
  intros Hdf Hout.
  destruct (transform_data_run w data df Hdf) as (last & -> & Hlast).
  rewrite (Hlast out Hout). unfold result_frame. rewrite Hout. simpl.
  by rewrite list_lookup_middle.
Qed.

Lemma transform_data_frame_inv w data df out :
  heap w !! data = Some df →
  result_frame (transform_data data w) = Some out →
  transform_frame df = Ok out.
Proof.
  intros Hdf.
  destruct (transform_frame df) as [out'|e] eqn:Hout.
  - rewrite (transform_data_frame w data df out') by done. congruence.
  - destruct (transform_data_run w data df Hdf) as (last & -> & _).
    unfold result_frame. by rewrite Hout.
Qed.

(** Whatever its argument, [transform_data] returns normally, prints one
    line, leaves the files alone and only adds objects to the store. *)
Lemma transform_data_effect w data :
  ∃ r new line,
    transform_data data w
    = (Ok r, {| heap := heap w ++ new; fs := fs w; stdout := stdout w ++ [line] |})
    ∧ length new ≤ 1
    ∧ (heap w !! data = None → new = [])
    ∧ (r = None → ∃ e, line = "Error in data transformation: " +:+ str_exn e).
Proof.
  destruct (heap w !! data) as [df|] eqn:Hdf.
  - destruct (transform_data_run w data df Hdf) as (last & -> & _).
    eexists _, [last], _. split; [reflexivity|]. split; [done|]. split; [done|].
    destruct (transform_frame df) as [out|e]; [done|]. intros _. by exists e.
  - exists None, [], ("Error in data transformation: " +:+ str_exn SystemError).
    split.
    + unfold transform_data, try_except, mbind, M_bind, read_frame.
      rewrite Hdf. simpl. by rewrite app_nil_r.
    + split; [simpl; lia|]. split; [done|]. intros _. by eexists.
Qed.

(** ** Arithmetic on a numeric salary column *)

Lemma numeric_arith salary :
  is_numeric salary = true →
  ∃ tax net_salary,
    mul_scalar salary TAX_RATE = Ok tax
    ∧ sub_col salary tax = Ok net_salary
    ∧ ∀ i s, box salary !! i = Some s →
        box tax !! i = Some (PFloat (as_float s * TAX_RATE)%float)
        ∧ box net_salary !! i
          = Some (PFloat (as_float s - as_float s * TAX_RATE)%float).
Proof.
  destruct salary as [xs|xs|xs]; [| |done]; intros _; simpl.
  - eexists _, _. split; [reflexivity|]. split; [reflexivity|].
    intros i s. simpl. rewrite !list_lookup_fmap, lookup_zip_with, list_lookup_fmap.
    destruct (xs !! i) as [z|]; [|done]. by intros [= <-].
  - eexists _, _. split; [reflexivity|]. split; [reflexivity|].
    intros i s. simpl. rewrite !list_lookup_fmap, lookup_zip_with, list_lookup_fmap.
    destruct (xs !! i) as [z|]; [|done]. by intros [= <-].
Qed.

Lemma is_numeric_select mask c : is_numeric (select_col mask c) = is_numeric c.
Proof. by destruct c. Qed.

Lemma col_length_select mask c df :
  col_length c = nrows df →
  col_length (select_col mask c) = length (select mask (index df)).
Proof.
  intros Hc. rewrite <- !length_box in *. rewrite box_select_col.
  by apply length_select_same.
Qed.

Ltac wf_by_computation :=
  split; [compute_done|repeat constructor].

Lemma wf_sample_dataframe : wf_frame sample_dataframe.
Proof. wf_by_computation. Defined.

Lemma wf_missing_dataframe : wf_frame missing_dataframe.
Proof. wf_by_computation. Defined.

Lemma wf_taxed_dataframe : wf_frame taxed_dataframe.
Proof. wf_by_computation. Defined.

Lemma wf_text_salary_dataframe : wf_frame text_salary_dataframe.
Proof. wf_by_computation. Defined.

Lemma wf_header_only_dataframe : wf_frame header_only_dataframe.
Proof. wf_by_computation. Defined.

(** ** The frame invariant *)

Lemma length_mapM {A B} (f : A → result B) (xs : list A) ys :
  mapM f xs = Ok ys → length ys = length xs.
Proof.
  revert ys. induction xs as [|x xs IH]; intros ys; simpl.
  - by intros [= <-].
  - destruct (f x) as [y|]; [|done]. simpl.
    destruct (mapM f xs) as [ys'|]; [|done]. simpl.
    intros [= <-]. simpl. by rewrite (IH ys').
Qed.

Lemma col_length_mul_scalar c k t :
  mul_scalar c k = Ok t → col_length t = col_length c.
Proof.
  destruct c as [xs|xs|xs]; simpl.
  - intros [= <-]. simpl. by rewrite length_fmap.
  - intros [= <-]. simpl. by rewrite length_fmap.
  - destruct (mapM _ xs) as [ys|] eqn:Hys; [|done]. simpl.
    intros [= <-]. simpl. by eapply length_mapM.
Qed.

Lemma col_length_sub_col a b c :
  col_length a = col_length b →
  sub_col a b = Ok c → col_length c = col_length a.
Proof.
  intros Hlen. rewrite <- !length_box in Hlen.
  assert (∀ zs, mapM (masked2 py_sub) (zip (box a) (box b)) = Ok zs →
                length zs = col_length a) as Hobj.
  { intros zs Hzs%length_mapM.
    rewrite Hzs, length_zip_with, <- Hlen, length_box. lia. }
  destruct a as [xs|xs|xs], b as [ys|ys|ys]; simpl in *;
    rewrite ?length_fmap in Hlen;
    try (intros [= <-]; simpl; rewrite length_zip_with; lia);
    (destruct (mapM _ _) as [zs|]; [|done]); simpl;
    intros [= <-]; simpl; by apply Hobj.
Qed.

Lemma wf_dropna df : wf_frame df → wf_frame (dropna df).
Proof.
  intros [Hnd Hal]. split; [by rewrite names_dropna|].
  unfold dropna at 1; simpl. rewrite Forall_fmap.
  eapply Forall_impl; [exact Hal|]. intros [k c] Hc; simpl in *.
  by apply col_length_select.
Qed.

Lemma wf_setitem df key v :
  wf_frame df → col_length v = nrows df → wf_frame (setitem df key v).
Proof.
  intros [Hnd Hal] Hv. split.
  - rewrite names_setitem. apply NoDup_app. split; [done|]. split.
    + intros k Hk [Hk' _]%list_elem_of_filter. done.
    + apply NoDup_filter, NoDup_singleton.
  - unfold setitem, nrows in *; simpl.
    induction Hal as [|[k c] cs Hc Hcs IH]; simpl.
    + by repeat constructor.
    + destruct (String.eqb k key); by constructor.
Qed.

(** The frame [transform_data] returns satisfies the frame invariant. *)
Lemma wf_transform_frame df out :
  wf_frame df → transform_frame df = Ok out → wf_frame out.
Proof.
  intros Hwf Hout.
  apply derive_inv in Hout as (salary & tax & net & Hs & Ht & Hn & ->).
  pose proof (wf_dropna df Hwf) as Hdc.
  assert (col_length salary = nrows (dropna df)) as Hlen
    by (rewrite <- length_box; by eapply col_aligned).
  assert (col_length tax = nrows (dropna df)) as Hlent
    by (by rewrite (col_length_mul_scalar _ _ _ Ht)).
  apply wf_setitem; [by apply wf_setitem|].
  rewrite (col_length_sub_col salary tax net); [done|congruence|done].
Qed.

(** ** Properties of the transform stage *)



(** The comparison [==] of two floats is the IEEE one: a value compares
    equal to itself unless it is NaN.  The derived cells are never NaN
    for a finite salary; an infinite salary gives [net_salary = inf - inf],
    which is NaN. *)
Lemma float_eqb_self (x : float) : (x =? x)%float = negb (is_nan x).
Proof. unfold is_nan. by rewrite negb_involutive. Qed.

Example infinite_salary_net_salary :
  ∃ out,
    result_frame (transform_data 0 (world_with infinite_salary_dataframe)) = Some out
    ∧ cell out "tax" 0 = Some (PFloat infinity)
    ∧ cell out "net_salary" 0 = Some (PFloat nan).
Proof. eexists. split; [reflexivity|]. split; reflexivity. Qed.

(** C2: the frame [transform_data] returns has as many rows as the input
    has rows without a missing cell, all columns counted. *)
Theorem transform_data_row_count w data df out :
  heap w !! data = Some df →
  wf_frame df →
  result_frame (transform_data data w) = Some out →
  nrows out = length (complete_rows df).
Proof.
  intros Hdf Hwf Hout.
  apply (transform_data_frame_inv w data df out Hdf) in Hout.
  apply derive_inv in Hout as (salary & tax & net & _ & _ & _ & ->).
  unfold nrows; simpl. by apply nrows_dropna.
Qed.

Lemma transform_data_row_count_witness :
  ∃ out,
    result_frame (transform_data 0 (world_with missing_dataframe)) = Some out
    ∧ nrows out = length (complete_rows missing_dataframe)
    ∧ nrows out = 1.
Proof.
  eexists. split; [reflexivity|]. split; [|reflexivity].
  apply (transform_data_row_count (world_with missing_dataframe) 0
           missing_dataframe).
  - reflexivity.
  - exact wf_missing_dataframe.
  - reflexivity.
Defined.



Lemma names_transform_frame df out :
  transform_frame df = Ok out →
  names out
  = names df ++ filter (λ k, k ∉ names df) ["tax"; "net_salary"].
Proof.
  intros Hout.
  apply derive_inv in Hout as (salary & tax & net & _ & _ & _ & ->).
  rewrite !names_setitem, names_dropna, <- (assoc_L (++)). f_equal.
  change ["tax"; "net_salary"] with (["tax"] ++ ["net_salary"]).
  rewrite (filter_app _ ["tax"]). f_equal.
  apply filter_ext_in. intros k ->%list_elem_of_singleton.
  rewrite not_elem_of_app. split; [by intros [? _]|].
  intros Hk. split; [done|].
  intros [_ Hin]%list_elem_of_filter. by apply list_elem_of_singleton in Hin.
Qed.

(** C3, as the code has it: the returned frame has the input's columns in
    their order, followed by those of [tax] and [net_salary] (in this
    order) that the input does not have; a column of the input named
    [tax] or [net_salary] stays where it is.  The labels of the input are
    unique, as the model of [__setitem__] supposes. *)
Theorem transform_data_column_order w data df out :
  heap w !! data = Some df →
  NoDup (names df) →
  result_frame (transform_data data w) = Some out →
  names out
  = names df ++ filter (λ k, k ∉ names df) ["tax"; "net_salary"].
Proof.
  intros Hdf _ Hout.
  apply names_transform_frame.
  by apply (transform_data_frame_inv w data df out Hdf).
Qed.

Lemma transform_data_column_order_witness :
  ∃ out,
    result_frame (transform_data 0 (world_with taxed_dataframe)) = Some out
    ∧ names out
      = names taxed_dataframe
        ++ filter (λ k, k ∉ names taxed_dataframe) ["tax"; "net_salary"]
    ∧ names out = ["salary"; "tax"; "net_salary"].
Proof.
  eexists. split; [reflexivity|]. split; [|reflexivity].
  apply (transform_data_column_order (world_with taxed_dataframe) 0
           taxed_dataframe).
  - reflexivity.
  - compute_done.
  - reflexivity.
Defined.

(** C3 as stated fails on a frame that already has a [tax] column: the
    assignment overwrites that column and the output has three columns,
    not the input's two followed by [tax] and [net_salary]. *)
Lemma transform_data_column_order_counterexample :
  ∃ out,
    result_frame (transform_data 0 (world_with taxed_dataframe)) = Some out
    ∧ names out ≠ names taxed_dataframe ++ ["tax"; "net_salary"].
Proof. eexists. split; [reflexivity|]. vm_compute. discriminate. Qed.

(** ** Frames without rows *)

Lemma empty_arith salary :
  col_length salary = 0 →
  ∃ tax net_salary,
    mul_scalar salary TAX_RATE = Ok tax ∧ sub_col salary tax = Ok net_salary.
Proof.
  destruct salary as [[|x xs]|[|x xs]|[|x xs]]; try done; intros _;
    by eexists _, _.
Qed.

(** C6: on a frame with a [salary] column and no rows, [transform_data]
    returns a frame with no rows that has the columns of the input and
    the columns [tax] and [net_salary]. *)
Theorem transform_data_header_only w data df :
  heap w !! data = Some df →
  wf_frame df →
  nrows df = 0 →
  "salary" ∈ names df →
  ∃ out,
    result_frame (transform_data data w) = Some out
    ∧ nrows out = 0
    ∧ "tax" ∈ names out
    ∧ "net_salary" ∈ names out
    ∧ names df ⊆ names out.
Proof.
  intros Hdf Hwf Hrows Hin.
  destruct (lookup_col "salary" (columns df)) as [salary|] eqn:Hs;
    [|by apply lookup_col_None in Hs].
  assert (col_length (select_col (dropna_mask df) salary) = 0) as Hlen.
  { rewrite <- length_box, box_select_col.
    assert (box salary = []) as ->; [|by rewrite select_nil].
    apply length_zero_iff_nil. by rewrite (col_aligned df Hwf "salary"). }
  destruct (empty_arith _ Hlen) as (tax & net & Ht & Hn).
  assert (transform_frame df
          = Ok (setitem (setitem (dropna df) "tax" tax) "net_salary" net)) as Hout.
  { eapply derive_intro; [|done..]. by rewrite lookup_col_dropna, Hs. }
  eexists. split; [by eapply transform_data_frame|].
  pose proof (names_transform_frame df _ Hout) as Hnames.
  split.
  { change (nrows (dropna df) = 0).
    rewrite nrows_dropna by done. unfold complete_rows. by rewrite Hrows. }
  rewrite Hnames.
  split; [|split].
  - destruct (decide ("tax" ∈ names df)) as [Htax|Htax];
      [by apply elem_of_app; left|].
    apply elem_of_app; right. apply list_elem_of_filter. split; [done|left].
  - destruct (decide ("net_salary" ∈ names df)) as [Hnet|Hnet];
      [by apply elem_of_app; left|].
    apply elem_of_app; right. apply list_elem_of_filter.
    split; [done|right; left].
  - intros k Hk. by apply elem_of_app; left.
Qed.

Lemma transform_data_header_only_witness :
  ∃ out,
    result_frame (transform_data 0 (world_with header_only_dataframe)) = Some out
    ∧ nrows out = 0
    ∧ "tax" ∈ names out
    ∧ "net_salary" ∈ names out
    ∧ names header_only_dataframe ⊆ names out.
Proof.
  apply (transform_data_header_only (world_with header_only_dataframe) 0
           header_only_dataframe).
  - reflexivity.
  - exact wf_header_only_dataframe.
  - reflexivity.
  - compute_done.
Defined.

(** ** Text in the salary column *)





(** C10: [transform_data] leaves the frame it is given as it was: the
    objects of the store before the call are unchanged after it, the
    call only adds the new frame [data_cleaned]; the files are unchanged
    too. *)
Theorem transform_data_frame_rule w data :
  heap (transform_data data w).2 !! data = heap w !! data
  ∧ (∃ new, heap (transform_data data w).2 = heap w ++ new)
  ∧ fs (transform_data data w).2 = fs w.
Proof.
  destruct (transform_data_effect w data) as (r & new & line & -> & _ & Hnew & _).
  simpl. split; [|split; [by exists new|done]].
  destruct (heap w !! data) as [df|] eqn:Hdf.
  - rewrite lookup_app_l; [done|]. by eapply lookup_lt_Some.
  - by rewrite (Hnew eq_refl), app_nil_r.
Qed.

(** ** The driver *)

Section PipelineFacts.
Variable read_csv : string → result DataFrame.
Variable to_csv : DataFrame → string.
Variable write_error : string → option exn.

Local Abbreviation extract := (extract_data read_csv).
Local Abbreviation load := (load_data to_csv write_error).
Local Abbreviation etl := (etl_process read_csv to_csv write_error).
Local Abbreviation files_after := (files_after read_csv to_csv write_error).

Lemma extract_data_run file_path w :
  extract file_path w
  = match fs w !! file_path with
    | Some content =>
        match read_csv content with
        | Ok df =>
            (Ok (Some (length (heap w))),
             {| heap := heap w ++ [df]; fs := fs w;
                stdout := stdout w ++ ["Data extraction successful."] |})
        | Raise e =>
            (Ok None,
             {| heap := heap w; fs := fs w;
                stdout := stdout w ++ ["Error in data extraction: " +:+ str_exn e] |})
        end
    | None =>
        (Ok None,
         {| heap := heap w; fs := fs w;
            stdout := stdout w
              ++ ["Error in data extraction: " +:+ str_exn (FileNotFoundError file_path)] |})
    end.
Proof.
  unfold extract_data, try_except, mbind, M_bind, open_read.
  destruct (fs w !! file_path) as [content|]; [|done].
  unfold lift. by destruct (read_csv content).
Qed.

Lemma load_data_run data output_file_path w df :
  heap w !! data = Some df →
  load data output_file_path w
  = (Ok (),
     match write_error output_file_path with
     | None =>
         {| heap := heap w; fs := <[output_file_path := to_csv df]> (fs w);
            stdout := stdout w
              ++ ["Data loaded successfully to " +:+ output_file_path +:+ "."] |}
     | Some e =>
         {| heap := heap w; fs := fs w;
            stdout := stdout w ++ ["Error in data loading: " +:+ str_exn e] |}
     end).
Proof.
  intros Hdf.
  unfold load_data, try_except, mbind, M_bind, read_frame, write_file.
  rewrite Hdf. by destruct (write_error output_file_path).
Qed.

Lemma etl_process_fs input_file output_file w :
  fs (etl input_file output_file w).2 = files_after input_file output_file w.
Proof.
  unfold etl_process, files_after, mbind, M_bind.
  rewrite extract_data_run.
  destruct (fs w !! input_file) as [content|]; [|done].
  destruct (read_csv content) as [df|e]; [|done].
  set (w1 := {| heap := heap w ++ [df]; fs := fs w;
                stdout := stdout w ++ ["Data extraction successful."] |}).
  assert (heap w1 !! length (heap w) = Some df) as Hdf
    by (by apply list_lookup_middle).
  destruct (transform_data_run w1 _ df Hdf) as (last & -> & Hlast).
  destruct (transform_frame df) as [out|e] eqn:Hout; [|done].
  simpl. rewrite (Hlast out eq_refl).
  erewrite load_data_run; [by destruct (write_error output_file)|].
  simpl. rewrite length_app. simpl.
  replace (length (heap w) + 1) with (length (heap w ++ [df])) by (rewrite length_app; simpl; lia).
  by apply list_lookup_middle.
Qed.

Lemma etl_process_transform_raise input_file output_file w content df e :
  fs w !! input_file = Some content →
  read_csv content = Ok df →
  transform_frame df = Raise e →
  ∃ last,
    etl input_file output_file w
    = (Ok (),
       {| heap := heap w ++ [df; last]; fs := fs w;
          stdout := stdout w
            ++ ["Data extraction successful.";
                "Error in data transformation: " +:+ str_exn e] |}).
Proof.
  intros Hin Hread Hraise.
  unfold etl_process, mbind, M_bind.
  rewrite extract_data_run, Hin, Hread.
  set (w1 := {| heap := heap w ++ [df]; fs := fs w;
                stdout := stdout w ++ ["Data extraction successful."] |}).
  assert (heap w1 !! length (heap w) = Some df) as Hdf
    by (by apply list_lookup_middle).
  destruct (transform_data_run w1 _ df Hdf) as (last & -> & _).
  rewrite Hraise. simpl. exists last.
  by rewrite <- !(assoc_L (++)).
Qed.

(** C4: on a frame without a [salary] column [transform_data] returns
    [None], and a run of the driver on a file that holds such a frame
    stops after the transform stage: it writes no file. *)
Theorem missing_salary_fails input_file output_file w content df :
  "salary" ∉ names df →
  (∀ w' data, heap w' !! data = Some df → (transform_data data w').1 = Ok None)
  ∧ (fs w !! input_file = Some content →
     read_csv content = Ok df →
     fs (etl input_file output_file w).2 = fs w
     ∧ stdout (etl input_file output_file w).2
       = stdout w ++ ["Data extraction successful.";
                      "Error in data transformation: 'salary'"]).
Proof.
  intros Hno.
  assert (transform_frame df = Raise (KeyError "salary")) as Hraise.
  { apply derive_no_salary. rewrite lookup_col_dropna.
    apply lookup_col_None in Hno. unfold names in Hno. by rewrite Hno. }
  split.
  - intros w' data Hdf. by rewrite (transform_data_returns w' data df Hdf), Hraise.
  - intros Hin Hread.
    destruct (etl_process_transform_raise input_file output_file w content df _
                Hin Hread Hraise) as [last ->].
    done.
Qed.

(** C5: a failed stage ends the run.  When extraction returns [None]
    the run ends in the world extraction left: one error line printed,
    no object created, no file written.  When transformation returns
    [None] the run ends after its error line, and no file is written. *)
Theorem etl_process_short_circuit input_file output_file w :
  ((extract input_file w).1 = Ok None →
   ∃ e,
     etl input_file output_file w
     = (Ok (),
        {| heap := heap w; fs := fs w;
           stdout := stdout w ++ ["Error in data extraction: " +:+ str_exn e] |}))
  ∧ (∀ data w1,
       extract input_file w = (Ok (Some data), w1) →
       (transform_data data w1).1 = Ok None →
       ∃ new e,
         etl input_file output_file w
         = (Ok (),
            {| heap := heap w ++ new; fs := fs w;
               stdout := stdout w
                 ++ ["Data extraction successful.";
                     "Error in data transformation: " +:+ str_exn e] |})).
Proof.
  split.
  - unfold etl_process, mbind, M_bind. rewrite extract_data_run.
    destruct (fs w !! input_file) as [content|]; [|by eexists].
    destruct (read_csv content) as [df|e]; [done|by eexists].
  - intros data w1. unfold etl_process, mbind, M_bind.
    rewrite extract_data_run.
    destruct (fs w !! input_file) as [content|]; [|done].
    destruct (read_csv content) as [df|e]; [|done].
    intros [= <- <-].
    match goal with |- context [transform_data ?d ?w1] =>
      destruct (transform_data_effect w1 d) as (r & new & line & -> & _ & _ & Hline)
    end.
    simpl. intros [= ->]. destruct (Hline eq_refl) as [e ->].
    exists (df :: new), e. by rewrite <- !(assoc_L (++)).
Qed.

Lemma result_frame_transform w data df :
  heap w !! data = Some df →
  result_frame (transform_data data w)
  = match transform_frame df with
    | Ok out => Some out
    | Raise _ => None
    end.
Proof.
  intros Hdf. destruct (transform_frame df) as [out|e] eqn:Hout.
  - by apply (transform_data_frame w data df).
  - unfold result_frame.
    by rewrite (transform_data_returns w data df Hdf), Hout.
Qed.

(** C9: a second run of the driver on the same paths leaves every file
    as the first run left it, the output file included, provided the
    output is not written over the input; two runs from worlds that agree
    on the input file (and on the output file before the run) end with
    the same output file; and the frame that [transform_data] returns
    depends on the frame it is given only, not on the rest of the world. *)
Theorem etl_process_rerun input_file output_file w :
  input_file ≠ output_file →
  fs (etl input_file output_file (etl input_file output_file w).2).2
  = fs (etl input_file output_file w).2
  ∧ (∀ w',
       fs w' !! input_file = fs w !! input_file →
       fs w' !! output_file = fs w !! output_file →
       fs (etl input_file output_file w').2 !! output_file
       = fs (etl input_file output_file w).2 !! output_file)
  ∧ ∀ w1 w2 d1 d2 df,
      heap w1 !! d1 = Some df →
      heap w2 !! d2 = Some df →
      result_frame (transform_data d1 w1) = result_frame (transform_data d2 w2).
Proof.
  intros Hne. split; [|split].
  - rewrite (etl_process_fs _ _ (etl input_file output_file w).2).
    unfold files_after at 1. rewrite !etl_process_fs.
    assert (files_after input_file output_file w !! input_file
            = fs w !! input_file) as ->.
    { unfold files_after.
      destruct (fs w !! input_file) as [content|] eqn:Hin; [|done].
      destruct (read_csv content) as [df|]; [|done].
      destruct (transform_frame df) as [out|]; [|done].
      destruct (write_error output_file); [done|].
      by rewrite lookup_insert_ne. }
    unfold files_after.
    destruct (fs w !! input_file) as [content|]; [|done].
    destruct (read_csv content) as [df|]; [|done].
    destruct (transform_frame df) as [out|]; [|done].
    destruct (write_error output_file); [done|].
    by rewrite insert_insert_eq.
  - intros w' Hin Hout. rewrite !etl_process_fs. unfold files_after.
    rewrite Hin.
    destruct (fs w !! input_file) as [content|]; [|done].
    destruct (read_csv content) as [df|]; [|done].
    destruct (transform_frame df) as [out|]; [|done].
    destruct (write_error output_file); [done|].
    by rewrite !lookup_insert_eq.
  - intros w1 w2 d1 d2 df H1 H2.
    by rewrite (result_frame_transform w1 d1 df), (result_frame_transform w2 d2 df).
Qed.

End PipelineFacts.

(** ** The driver on the two example files *)

Example run_two_files_sample :
  fs (run_two_files "in.csv" "out.csv" two_files_world).2 !! "out.csv"
  = Some "id,name,age,city,salary,tax,net_salary"
  ∧ stdout (run_two_files "in.csv" "out.csv" two_files_world).2
    = ["Data extraction successful."; "Data transformation successful.";
       "Data loaded successfully to out.csv."].
Proof. split; reflexivity. Qed.

Lemma missing_salary_fails_witness :
  (transform_data 0 (world_with no_salary_dataframe)).1 = Ok None
  ∧ fs (run_two_files "bad.csv" "out.csv" two_files_world).2 = fs two_files_world
  ∧ stdout (run_two_files "bad.csv" "out.csv" two_files_world).2
    = ["Data extraction successful."; "Error in data transformation: 'salary'"].
Proof.
  destruct (missing_salary_fails two_files_read_csv header_to_csv
              only_out_writable "bad.csv" "out.csv" two_files_world
              "no salary" no_salary_dataframe) as [Htransform Hrun].
  - compute_done.
  - split.
    + apply Htransform. reflexivity.
    + apply Hrun; reflexivity.
Defined.

Lemma etl_process_short_circuit_witness :
  (∃ e,
     run_two_files "nowhere.csv" "out.csv" two_files_world
     = (Ok (),
        {| heap := []; fs := fs two_files_world;
           stdout := ["Error in data extraction: " +:+ str_exn e] |}))
  ∧ (∃ new e,
       run_two_files "bad.csv" "out.csv" two_files_world
       = (Ok (),
          {| heap := new; fs := fs two_files_world;
             stdout := ["Data extraction successful.";
                        "Error in data transformation: " +:+ str_exn e] |})).
Proof.
  split.
  - apply (etl_process_short_circuit two_files_read_csv header_to_csv
             only_out_writable "nowhere.csv" "out.csv" two_files_world).
    reflexivity.
  - eapply (etl_process_short_circuit two_files_read_csv header_to_csv
              only_out_writable "bad.csv" "out.csv" two_files_world).
    + reflexivity.
    + reflexivity.
Defined.

Lemma etl_process_rerun_witness :
  fs (run_two_files "in.csv" "out.csv"
        (run_two_files "in.csv" "out.csv" two_files_world).2).2
  = fs (run_two_files "in.csv" "out.csv" two_files_world).2
  ∧ result_frame (transform_data 0 (world_with sample_dataframe))
    = result_frame
        (transform_data 1
           (new_frame sample_dataframe (world_with empty_dataframe)).2).
Proof.
  destruct (etl_process_rerun two_files_read_csv header_to_csv only_out_writable
              "in.csv" "out.csv" two_files_world) as (Hrerun & _ & Hframe).
  - discriminate.
  - split; [exact Hrerun|].
    apply (Hframe _ _ 0 1 sample_dataframe); reflexivity.
Defined.

(** The frame of [test_transform_data_empty_dataframe] has no [salary]
    column: [transform_data] returns [None] on it, where the test expects
    a frame. *)
Example transform_data_empty_dataframe :
  transform_data 0 (world_with empty_dataframe)
  = (Ok None,
     {| heap := [empty_dataframe; empty_dataframe]; fs := ∅;
        stdout := ["Error in data transformation: 'salary'"] |}).
Proof. reflexivity. Qed.

(** ** More on extraction and loading *)

Section StageFacts.
Variable read_csv : string → result DataFrame.
Variable to_csv : DataFrame → string.
Variable write_error : string → option exn.



(** When the file is there and [pd.read_csv] accepts it, [extract_data]
    returns a fresh reference to the frame read, prints the success line,
    and leaves the files and the objects already in the store alone. *)
Theorem extract_data_success file_path w content df :
  fs w !! file_path = Some content →
  read_csv content = Ok df →
  result_frame (extract_data read_csv file_path w) = Some df
  ∧ (extract_data read_csv file_path w).1 = Ok (Some (length (heap w)))
  ∧ heap w !! length (heap w) = None
  ∧ (∀ l, l < length (heap w) →
       heap (extract_data read_csv file_path w).2 !! l = heap w !! l)
  ∧ fs (extract_data read_csv file_path w).2 = fs w
  ∧ stdout (extract_data read_csv file_path w).2
    = stdout w ++ ["Data extraction successful."].
Proof.
  intros Hin Hread. rewrite extract_data_run, Hin, Hread.
  unfold result_frame; simpl.
  split; [by apply list_lookup_middle|]. split; [done|].
  split; [by apply lookup_ge_None_2|]. split; [|done].
  intros l Hl. by apply lookup_app_l.
Qed.

(** [load_data] to a path that can be written: afterwards the file at
    that path holds the rendering of the frame, every other file is as
    before, the success line is printed and the store is unchanged. *)
Theorem load_data_writes data output_file_path w df :
  heap w !! data = Some df →
  write_error output_file_path = None →
  (load_data to_csv write_error data output_file_path w).1 = Ok ()
  ∧ fs (load_data to_csv write_error data output_file_path w).2
      !! output_file_path = Some (to_csv df)
  ∧ (∀ path, path ≠ output_file_path →
       fs (load_data to_csv write_error data output_file_path w).2 !! path = fs w !! path)
  ∧ heap (load_data to_csv write_error data output_file_path w).2 = heap w
  ∧ stdout (load_data to_csv write_error data output_file_path w).2
    = stdout w ++ ["Data loaded successfully to " +:+ output_file_path +:+ "."].
Proof.
  intros Hdf Hw. rewrite (load_data_run _ _ _ _ _ df Hdf), Hw. simpl.
  split; [done|]. split; [apply lookup_insert_eq|]. split; [|done].
  intros path Hne. by apply lookup_insert_ne.
Qed.

(** [load_data] to a path that cannot be written returns normally: the
    error is printed, no file and no object changes. *)
Theorem load_data_unwritable data output_file_path w df e :
  heap w !! data = Some df →
  write_error output_file_path = Some e →
  load_data to_csv write_error data output_file_path w
  = (Ok (),
     {| heap := heap w; fs := fs w;
        stdout := stdout w ++ ["Error in data loading: " +:+ str_exn e] |}).
Proof.
  intros Hdf Hw. by rewrite (load_data_run _ _ _ _ _ df Hdf), Hw.
Qed.

(** Writing a frame and reading the file back: [extract_data] on the
    path [load_data] wrote returns what [pd.read_csv] makes of the
    rendering of the frame. *)
Theorem load_then_extract data path w df df' :
  heap w !! data = Some df →
  write_error path = None →
  read_csv (to_csv df) = Ok df' →
  result_frame
    (extract_data read_csv path (load_data to_csv write_error data path w).2)
  = Some df'.
Proof.
  intros Hdf Hw Hread.
  rewrite (load_data_run _ _ _ _ _ df Hdf), Hw. simpl.
  rewrite extract_data_run. simpl. rewrite lookup_insert_eq, Hread.
  unfold result_frame; simpl. by apply list_lookup_middle.
Qed.

End StageFacts.

(** ** More on the driver *)

Section DriverFacts.
Variable read_csv : string → result DataFrame.
Variable to_csv : DataFrame → string.
Variable write_error : string → option exn.

Local Abbreviation files_of := (files_after read_csv to_csv write_error).
Local Abbreviation line_of := (load_line write_error).

Lemma etl_process_loads input_file output_file w content df out :
  fs w !! input_file = Some content →
  read_csv content = Ok df →
  transform_frame df = Ok out →
  etl_process read_csv to_csv write_error input_file output_file w
  = (Ok (),
     {| heap := heap w ++ [df; out];
        fs := files_of input_file output_file w;
        stdout := stdout w
          ++ ["Data extraction successful."; "Data transformation successful.";
              line_of output_file] |}).
Proof.
  intros Hin Hread Hout.
  unfold etl_process, files_after, load_line, mbind, M_bind.
  rewrite extract_data_run, Hin, Hread, Hout.
  set (w1 := {| heap := heap w ++ [df]; fs := fs w;
                stdout := stdout w ++ ["Data extraction successful."] |}).
  assert (heap w1 !! length (heap w) = Some df) as Hdf
    by (by apply list_lookup_middle).
  destruct (transform_data_run w1 _ df Hdf) as (last & -> & Hlast).
  rewrite Hout. simpl. rewrite (Hlast out Hout).
  erewrite load_data_run; [|by apply list_lookup_middle].
  simpl. destruct (write_error output_file); simpl;
    by rewrite <- !(assoc_L (++)).
Qed.

(** A run in which the three stages succeed: the output file holds the
    rendering of the transformed frame, every other file is as before,
    and the three success lines are printed in order. *)
Theorem etl_process_end_to_end input_file output_file w content df out :
  fs w !! input_file = Some content →
  read_csv content = Ok df →
  transform_frame df = Ok out →
  write_error output_file = None →
  (etl_process read_csv to_csv write_error input_file output_file w).1 = Ok ()
  ∧ fs (etl_process read_csv to_csv write_error input_file output_file w).2
    = <[output_file := to_csv out]> (fs w)
  ∧ stdout (etl_process read_csv to_csv write_error input_file output_file w).2
    = stdout w
      ++ ["Data extraction successful."; "Data transformation successful.";
          "Data loaded successfully to " +:+ output_file +:+ "."].
Proof.
  intros Hin Hread Hout Hw.
  rewrite (etl_process_loads _ _ _ _ _ _ Hin Hread Hout).
  unfold files_after, load_line. by rewrite Hin, Hread, Hout, Hw.
Qed.

(** A run in which only the load stage fails: extraction and
    transformation print their success lines, the load error is printed,
    no file changes and the run returns normally. *)
Theorem etl_process_load_failure input_file output_file w content df out e :
  fs w !! input_file = Some content →
  read_csv content = Ok df →
  transform_frame df = Ok out →
  write_error output_file = Some e →
  (etl_process read_csv to_csv write_error input_file output_file w).1 = Ok ()
  ∧ fs (etl_process read_csv to_csv write_error input_file output_file w).2 = fs w
  ∧ stdout (etl_process read_csv to_csv write_error input_file output_file w).2
    = stdout w
      ++ ["Data extraction successful."; "Data transformation successful.";
          "Error in data loading: " +:+ str_exn e].
Proof.
  intros Hin Hread Hout Hw.
  rewrite (etl_process_loads _ _ _ _ _ _ Hin Hread Hout).
  unfold files_after, load_line. by rewrite Hin, Hread, Hout, Hw.
Qed.

(** The driver writes to the output path only: every other file, the
    input file included when it is not the output, is as before. *)
Theorem etl_process_other_files input_file output_file w path :
  path ≠ output_file →
  fs (etl_process read_csv to_csv write_error input_file output_file w).2 !! path
  = fs w !! path.
Proof.
  intros Hne. rewrite etl_process_fs. unfold files_after.
  destruct (fs w !! input_file) as [content|]; [|done].
  destruct (read_csv content) as [df|]; [|done].
  destruct (transform_frame df) as [out|]; [|done].
  destruct (write_error output_file); [done|].
  by rewrite lookup_insert_ne.
Qed.

Lemma etl_process_effect input_file output_file w :
  ∃ new lines,
    etl_process read_csv to_csv write_error input_file output_file w
    = (Ok (),
       {| heap := heap w ++ new; fs := files_of input_file output_file w;
          stdout := stdout w ++ lines |})
    ∧ 1 ≤ length lines ≤ 3.
Proof.
  destruct (fs w !! input_file) as [content|] eqn:Hin.
  - destruct (read_csv content) as [df|e] eqn:Hread.
    + destruct (transform_frame df) as [out|e] eqn:Hout.
      * eexists _, _. split; [by eapply etl_process_loads|simpl; lia].
      * destruct (etl_process_transform_raise read_csv to_csv write_error
                    input_file output_file w content df e Hin Hread Hout)
          as [last ->].
        exists [df; last], ["Data extraction successful.";
                            "Error in data transformation: " +:+ str_exn e].
        split; [|simpl; lia].
        unfold files_after. by rewrite Hin, Hread, Hout.
    + exists [], ["Error in data extraction: " +:+ str_exn e].
      split; [|simpl; lia].
      unfold etl_process, files_after, mbind, M_bind.
      rewrite extract_data_run, Hin, Hread. simpl. by rewrite app_nil_r.
  - exists [], ["Error in data extraction: "
                +:+ str_exn (FileNotFoundError input_file)].
    split; [|simpl; lia].
    unfold etl_process, files_after, mbind, M_bind.
    rewrite extract_data_run, Hin. simpl. by rewrite app_nil_r.
Qed.

(** Whatever the files hold, the driver returns normally: no exception
    leaves a stage.  It prints one line per stage that ran, between one
    and three, and only adds objects to the store. *)
Theorem etl_process_never_raises input_file output_file w :
  (etl_process read_csv to_csv write_error input_file output_file w).1 = Ok ()
  ∧ (∃ new,
       heap (etl_process read_csv to_csv write_error input_file output_file w).2
       = heap w ++ new)
  ∧ ∃ lines,
      stdout (etl_process read_csv to_csv write_error input_file output_file w).2
      = stdout w ++ lines
      ∧ 1 ≤ length lines ≤ 3.
Proof.
  destruct (etl_process_effect input_file output_file w)
    as (new & lines & -> & Hlen).
  simpl. split; [done|]. split; [by exists new|]. by exists lines.
Qed.

End DriverFacts.

(** ** More on the transform stage *)

(** The frame invariant is kept: on a frame with unique labels and
    columns as long as the index, [transform_data] returns such a frame. *)
Theorem transform_data_keeps_invariant w data df out :
  heap w !! data = Some df →
  wf_frame df →
  result_frame (transform_data data w) = Some out →
  wf_frame out.
Proof.
  intros Hdf Hwf Hout. apply (wf_transform_frame df out Hwf).
  by apply (transform_data_frame_inv w data df out Hdf).
Qed.

Lemma select_all_true {A} (mask : list bool) (xs : list A) :
  length mask = length xs →
  (∀ i, i < length xs → mask !! i = Some true) →
  select mask xs = xs.
Proof.
  revert xs. induction mask as [|b mask IH]; intros [|x xs] Hlen Hall;
    try done.
  injection Hlen as Hlen.
  assert (b = true) as -> by (specialize (Hall 0); simpl in Hall;
                              injection Hall; [done|lia]).
  simpl. f_equal. apply IH; [done|].
  intros i Hi. apply (Hall (S i)). simpl. lia.
Qed.

Lemma select_col_all_true mask c :
  length mask = col_length c →
  (∀ i, i < col_length c → mask !! i = Some true) →
  select_col mask c = c.
Proof.
  destruct c as [xs|xs|xs]; simpl; intros Hlen Hall; f_equal;
    by apply select_all_true.
Qed.

(** When no row of the input has a missing cell nothing is dropped: the
    index and every column other than [tax] and [net_salary] come out as
    they went in. *)
Theorem transform_data_complete_input w data df out :
  heap w !! data = Some df →
  wf_frame df →
  (∀ i, i < nrows df → present df i = true) →
  result_frame (transform_data data w) = Some out →
  index out = index df
  ∧ ∀ key, key ≠ "tax" → key ≠ "net_salary" →
      lookup_col key (columns out) = lookup_col key (columns df).
Proof.
  intros Hdf Hwf Hall Hout.
  apply (transform_data_frame_inv w data df out Hdf) in Hout.
  apply derive_inv in Hout as (salary & tax & net & _ & _ & _ & ->).
  assert (∀ i, i < nrows df → dropna_mask df !! i = Some true) as Hmask.
  { intros i Hi. by rewrite lookup_dropna_mask, Hall. }
  pose proof (length_dropna_mask df Hwf) as Hlen.
  split.
  - simpl. apply select_all_true; [done|]. intros i Hi. by apply Hmask.
  - intros key Htax Hnet. simpl.
    rewrite !lookup_set_col_ne by done.
    change (lookup_col key (columns (dropna df)) = lookup_col key (columns df)).
    rewrite lookup_col_dropna.
    destruct (lookup_col key (columns df)) as [c|] eqn:Hc; [|done].
    simpl. f_equal.
    assert (col_length c = nrows df) as Hc'
      by (rewrite <- length_box; by eapply col_aligned).
    apply select_col_all_true; [congruence|].
    intros i Hi. apply Hmask. lia.
Qed.

(** When no row is complete every row is dropped and the call still
    returns a frame, with no rows, whatever the [salary] column holds. *)
Theorem transform_data_no_complete_row w data df :
  heap w !! data = Some df →
  wf_frame df →
  "salary" ∈ names df →
  complete_rows df = [] →
  ∃ out,
    result_frame (transform_data data w) = Some out
    ∧ nrows out = 0
    ∧ "tax" ∈ names out ∧ "net_salary" ∈ names out.
Proof.
  intros Hdf Hwf Hin Hnone.
  destruct (lookup_col "salary" (columns df)) as [salary|] eqn:Hs;
    [|by apply lookup_col_None in Hs].
  assert (col_length (select_col (dropna_mask df) salary) = 0) as Hlen.
  { rewrite <- length_box, (box_dropna_col df Hwf "salary") by done.
    by rewrite Hnone. }
  destruct (empty_arith _ Hlen) as (tax & net & Ht & Hn).
  assert (transform_frame df
          = Ok (setitem (setitem (dropna df) "tax" tax) "net_salary" net)) as Hout.
  { eapply derive_intro; [|done..]. by rewrite lookup_col_dropna, Hs. }
  eexists. split; [by eapply transform_data_frame|].
  split.
  { change (nrows (dropna df) = 0). rewrite nrows_dropna by done.
    by rewrite Hnone. }
  rewrite (names_transform_frame df _ Hout).
  split.
  - destruct (decide ("tax" ∈ names df)) as [Htax|Htax];
      [by apply elem_of_app; left|].
    apply elem_of_app; right. apply list_elem_of_filter. split; [done|left].
  - destruct (decide ("net_salary" ∈ names df)) as [Hnet|Hnet];
      [by apply elem_of_app; left|].
    apply elem_of_app; right. apply list_elem_of_filter.
    split; [done|right; left].
Qed.

(** ** When the arithmetic succeeds *)

Lemma mapM_ok_iff {A B} (f : A → result B) (xs : list A) :
  (∃ ys, mapM f xs = Ok ys) ↔ Forall (λ x, ∃ y, f x = Ok y) xs.
Proof.
  induction xs as [|x xs IH]; simpl.
  - split; [constructor|by eexists].
  - split.
    + intros [ys Hys]. destruct (f x) as [y|] eqn:Hx; [|done].
      simpl in Hys. destruct (mapM f xs) as [ys'|] eqn:Hxs; [|done].
      constructor; [by eexists|]. apply IH. by eexists.
    + intros Hall. apply Forall_cons in Hall as [[y ->] Hxs].
      apply IH in Hxs as [ys ->]. by eexists.
Qed.

Lemma mapM_zip_ok {A B C} (f : A → result B) (g : A * B → result C) xs ys :
  (∀ x y, f x = Ok y → ∃ z, g (x, y) = Ok z) →
  mapM f xs = Ok ys →
  ∃ zs, mapM g (zip xs ys) = Ok zs.
Proof.
  intros Hfg. revert ys. induction xs as [|x xs IH]; intros ys; simpl.
  - intros [= <-]. by eexists.
  - destruct (f x) as [y|] eqn:Hx; [|done]. simpl.
    destruct (mapM f xs) as [ys'|] eqn:Hxs; [|done]. simpl.
    intros [= <-]. simpl.
    destruct (Hfg x y Hx) as [z ->]. simpl.
    destruct (IH ys' eq_refl) as [zs ->]. by eexists.
Qed.

Lemma masked_sub_after_mul o t :
  masked1 (py_mul TAX_RATE) o = Ok t → ∃ z, masked2 py_sub (o, t) = Ok z.
Proof.
  unfold masked1, masked2. simpl.
  destruct (isna o) eqn:Hna; [by eexists|]. simpl.
  destruct o as [s|z|f|]; simpl; try done.
  - unfold py_float. destruct (is_infinity (float_of_Z z)) eqn:Hinf; [done|].
    simpl. intros [= <-]. simpl.
    destruct (is_nan _); by eexists.
  - intros [= <-]. simpl. destruct (is_nan (f * TAX_RATE)); by eexists.
Qed.

(** Once [salary * 0.1] has succeeded, [salary - tax] succeeds too. *)
Lemma sub_after_mul salary tax :
  mul_scalar salary TAX_RATE = Ok tax →
  ∃ net_salary, sub_col salary tax = Ok net_salary.
Proof.
  destruct salary as [xs|xs|xs]; simpl.
  - intros [= <-]. by eexists.
  - intros [= <-]. by eexists.
  - destruct (mapM _ xs) as [ys|] eqn:Hys; [|done]. simpl.
    intros [= <-]. simpl.
    destruct (mapM_zip_ok _ (masked2 py_sub) xs ys masked_sub_after_mul Hys)
      as [zs ->].
    by eexists.
Qed.

Lemma masked_mul_number o :
  isna o = false →
  (∃ t, masked1 (py_mul TAX_RATE) o = Ok t) ↔ is_number o = true.
Proof.
  intros Hna. unfold masked1. rewrite Hna.
  destruct o as [s|z|f|]; simpl; try done.
  - split; [by intros [? [=]]|done].
  - unfold py_float. destruct (is_infinity (float_of_Z z)); simpl.
    + split; [by intros [? [=]]|done].
    + split; [done|by eexists].
  - split; [done|by eexists].
Qed.

Lemma present_cell df i key c o :
  present df i = true →
  lookup_col key (columns df) = Some c →
  box c !! i = Some o →
  isna o = false.
Proof.
  unfold present. intros Hp Hc%lookup_col_elem_of Ho.
  rewrite forallb_forall in Hp.
  apply list_elem_of_In in Hc. specialize (Hp _ Hc). simpl in Hp.
  rewrite Ho in Hp. by apply negb_true_iff.
Qed.

(** On an [object] column [salary] the arithmetic succeeds exactly when
    every complete row holds a number there. *)
Lemma object_salary_ok_iff df xs :
  wf_frame df →
  lookup_col "salary" (columns df) = Some (Object xs) →
  (∃ out, transform_frame df = Ok out)
  ↔ ∀ i o, i ∈ complete_rows df → xs !! i = Some o → is_number o = true.
Proof.
  intros Hwf Hs.
  pose proof (box_dropna_col df Hwf "salary" _ Hs) as Hbox. simpl in Hbox.
  assert (lookup_col "salary" (columns (dropna df))
          = Some (Object (take_rows (complete_rows df) xs))) as Hs'.
  { rewrite lookup_col_dropna, Hs. simpl. by rewrite Hbox. }
  assert (∀ o, o ∈ take_rows (complete_rows df) xs →
               ∃ i, i ∈ complete_rows df ∧ xs !! i = Some o ∧ isna o = false)
    as Hrows.
  { intros o (i & Hi & Ho)%list_elem_of_omap. exists i. split; [done|].
    split; [done|].
    apply list_elem_of_filter in Hi as [Hp _].
    apply (present_cell df i "salary" (Object xs) o); [|done..].
    by apply Is_true_true. }
  split.
  - intros [out Hout] i o Hi Ho.
    apply derive_inv in Hout as (salary & tax & net & Hsal & Ht & _ & _).
    rewrite Hs' in Hsal. injection Hsal as <-. simpl in Ht.
    destruct (mapM _ _) as [ys|] eqn:Hys; [|done].
    assert (∃ ys, mapM (masked1 (py_mul TAX_RATE))
                    (take_rows (complete_rows df) xs) = Ok ys) as Hok
      by (by eexists).
    apply mapM_ok_iff in Hok. rewrite Forall_forall in Hok.
    assert (o ∈ take_rows (complete_rows df) xs) as Hin
      by (apply list_elem_of_omap; by exists i).
    destruct (Hrows o Hin) as (_ & _ & _ & Hna).
    apply masked_mul_number; [done|]. by apply Hok.
  - intros Hnum.
    assert (∃ ys, mapM (masked1 (py_mul TAX_RATE))
                    (take_rows (complete_rows df) xs) = Ok ys) as [ys Hys].
    { apply mapM_ok_iff, Forall_forall. intros o Hin.
      destruct (Hrows o Hin) as (i & Hi & Ho & Hna).
      apply masked_mul_number; [done|]. by apply (Hnum i). }
    assert (mul_scalar (Object (take_rows (complete_rows df) xs)) TAX_RATE
            = Ok (Object ys)) as Ht by (simpl; by rewrite Hys).
    destruct (sub_after_mul _ _ Ht) as [net Hn].
    eexists. by eapply derive_intro.
Qed.

(** Why a call fails: [transform_data] returns [None] exactly when the
    frame has no [salary] column, or [salary] is an [object] column that
    holds, in a complete row, something that is not a number (text, or an
    integer beyond the range of [float()]). *)
Theorem transform_data_fails_iff w data df :
  heap w !! data = Some df →
  wf_frame df →
  (transform_data data w).1 = Ok None
  ↔ lookup_col "salary" (columns df) = None
    ∨ ∃ xs i o,
        lookup_col "salary" (columns df) = Some (Object xs)
        ∧ i ∈ complete_rows df
        ∧ xs !! i = Some o
        ∧ is_number o = false.
Proof.
  intros Hdf Hwf. rewrite (transform_data_returns w data df Hdf).
  destruct (lookup_col "salary" (columns df)) as [salary|] eqn:Hs.
  - destruct (is_numeric salary) eqn:Hnum.
    + destruct (numeric_arith (select_col (dropna_mask df) salary))
        as (tax & net & Ht & Hn & _); [by rewrite is_numeric_select|].
      unfold transform_frame.
      erewrite derive_intro; [| |done..]; [|by rewrite lookup_col_dropna, Hs].
      simpl. split; [done|].
      intros [[=]|(xs & i & o & [= ->] & _)]. done.
    + destruct salary as [?|?|xs]; try done.
      pose proof (object_salary_ok_iff df xs Hwf Hs) as Hiff.
      set (P := λ i, match xs !! i with
                     | Some o => is_number o = true
                     | None => True
                     end).
      assert (∀ i, Decision (P i)) as Hdec
        by (intros i; unfold P; destruct (xs !! i); apply _).
      destruct (decide (Forall P (complete_rows df))) as [Hall|Hex].
      * destruct (proj2 Hiff) as [out ->].
        { intros i o Hi Ho. rewrite Forall_forall in Hall.
          specialize (Hall i Hi). unfold P in Hall. by rewrite Ho in Hall. }
        simpl. split; [done|].
        intros [[=]|(xs' & i & o & [= <-] & Hi & Ho & Hno)].
        rewrite Forall_forall in Hall. specialize (Hall i Hi).
        unfold P in Hall. rewrite Ho in Hall. congruence.
      * apply not_Forall_Exists in Hex; [|done].
        apply Exists_exists in Hex as (i & Hi & HnP).
        unfold compose, P in HnP.
        destruct (xs !! i) as [o|] eqn:Ho; [|by destruct HnP].
        destruct (transform_frame df) as [out|e] eqn:Hout.
        { exfalso. apply HnP. apply (proj1 Hiff (ex_intro _ out eq_refl) i o Hi Ho). }
        simpl. split; [|done]. intros _. right. exists xs, i, o.
        split; [done|]. split; [done|]. split; [done|].
        by destruct (is_number o).
  - unfold transform_frame. rewrite derive_no_salary
      by (by rewrite lookup_col_dropna, Hs).
    simpl. split; [by left|done].
Qed.

(** The dtypes of the result: [tax] and [net_salary] are float64 columns
    when [salary] is int64 or float64 and [object] columns when it is an
    [object] column; [salary] and every other column of the input keep
    their dtype. *)
Theorem transform_data_dtypes w data df out :
  heap w !! data = Some df →
  result_frame (transform_data data w) = Some out →
  (∃ salary tax net_salary,
     lookup_col "salary" (columns df) = Some salary
     ∧ lookup_col "tax" (columns out) = Some tax
     ∧ lookup_col "net_salary" (columns out) = Some net_salary
     ∧ dtype_of tax = promoted salary
     ∧ dtype_of net_salary = promoted salary)
  ∧ ∀ key c, key ≠ "tax" → key ≠ "net_salary" →
      lookup_col key (columns df) = Some c →
      ∃ c', lookup_col key (columns out) = Some c' ∧ dtype_of c' = dtype_of c.
Proof.
  intros Hdf Hout.
  apply (transform_data_frame_inv w data df out Hdf) in Hout.
  apply derive_inv in Hout as (salary' & tax & net & Hs & Ht & Hn & ->).
  rewrite lookup_col_dropna in Hs.
  destruct (lookup_col "salary" (columns df)) as [salary|] eqn:Hsal; [|done].
  injection Hs as <-.
  split.
  - exists salary, tax, net. simpl.
    rewrite lookup_set_col_ne, !lookup_set_col_eq by done.
    split; [done|]. split; [done|]. split; [done|]. unfold promoted.
    destruct salary as [xs|xs|xs]; simpl in *.
    + injection Ht as <-. simpl in Hn. by injection Hn as <-.
    + injection Ht as <-. simpl in Hn. by injection Hn as <-.
    + destruct (mapM (masked1 _) _) as [ys|]; [|done].
      simpl in Ht. injection Ht as <-. simpl in Hn.
      destruct (mapM (masked2 _) _) as [zs|]; [|done].
      simpl in Hn. by injection Hn as <-.
  - intros key c Htax Hnet Hc. simpl.
    rewrite !lookup_set_col_ne by done.
    change (∃ c', lookup_col key (columns (dropna df)) = Some c'
                  ∧ dtype_of c' = dtype_of c).
    rewrite lookup_col_dropna, Hc. simpl. eexists. split; [done|].
    by destruct c.
Qed.

(** The message tells the outcome: [transform_data] always returns
    normally after printing exactly one line, and that line is the
    success line exactly when a frame is returned. *)
Theorem transform_data_one_line w data :
  ∃ r line,
    (transform_data data w).1 = Ok r
    ∧ stdout (transform_data data w).2 = stdout w ++ [line]
    ∧ (is_Some r ↔ line = "Data transformation successful.").
Proof.
  destruct (heap w !! data) as [df|] eqn:Hdf.
  - destruct (transform_data_run w data df Hdf) as (last & -> & _).
    eexists _, _. split; [done|]. split; [done|].
    destruct (transform_frame df) as [out|e]; simpl.
    + split; [done|by eexists].
    + split; [by intros [? [=]]|done].
  - unfold transform_data, try_except, mbind, M_bind, read_frame.
    rewrite Hdf. simpl. eexists _, _. split; [done|]. split; [done|].
    split; [by intros [? [=]]|done].
Qed.


(** ** The entry point *)

Section MainFacts.
Variable read_csv : string → result DataFrame.
Variable to_csv : DataFrame → string.
Variable write_error : gset string → string → option exn.
Variable dirname : string → string.
Variable makedirs : string → gset string → result unit * gset string.

Local Abbreviation main_of :=
  (main read_csv to_csv write_error dirname makedirs).





End MainFacts.

(** ** The properties on the example files *)


Lemma extract_data_success_witness :
  result_frame (extract_data two_files_read_csv "in.csv" two_files_world)
  = Some sample_dataframe.
Proof.
  apply (extract_data_success two_files_read_csv "in.csv" two_files_world
           "sample" sample_dataframe); reflexivity.
Defined.

Lemma load_data_writes_witness :
  fs (load_data header_to_csv only_out_writable 0 "out.csv"
        (world_with sample_dataframe)).2 !! "out.csv"
  = Some "id,name,age,city,salary".
Proof.
  apply (load_data_writes header_to_csv only_out_writable 0 "out.csv"
           (world_with sample_dataframe) sample_dataframe); reflexivity.
Defined.

Lemma load_data_unwritable_witness :
  load_data header_to_csv only_out_writable 0 "/invalid/path/output.csv"
    (world_with sample_dataframe)
  = (Ok (),
     {| heap := [sample_dataframe]; fs := ∅;
        stdout := ["Error in data loading: [Errno 13] Permission denied: '/invalid/path/output.csv'"] |}).
Proof.
  apply (load_data_unwritable header_to_csv only_out_writable 0
           "/invalid/path/output.csv" (world_with sample_dataframe)
           sample_dataframe
           (OSError "[Errno 13] Permission denied: '/invalid/path/output.csv'"));
    reflexivity.
Defined.

Lemma load_then_extract_witness :
  result_frame
    (extract_data two_files_read_csv "out.csv"
       (load_data (λ _, "sample") only_out_writable 0 "out.csv"
          (world_with sample_dataframe)).2)
  = Some sample_dataframe.
Proof.
  apply (load_then_extract two_files_read_csv (λ _, "sample") only_out_writable
           0 "out.csv" (world_with sample_dataframe) sample_dataframe
           sample_dataframe); reflexivity.
Defined.

Lemma etl_process_end_to_end_witness :
  (run_two_files "in.csv" "out.csv" two_files_world).1 = Ok ()
  ∧ fs (run_two_files "in.csv" "out.csv" two_files_world).2
    = <["out.csv" := header_to_csv sample_transformed]> (fs two_files_world)
  ∧ stdout (run_two_files "in.csv" "out.csv" two_files_world).2
    = ["Data extraction successful."; "Data transformation successful.";
       "Data loaded successfully to out.csv."].
Proof.
  apply (etl_process_end_to_end two_files_read_csv header_to_csv
           only_out_writable "in.csv" "out.csv" two_files_world "sample"
           sample_dataframe sample_transformed); reflexivity.
Defined.

Lemma etl_process_load_failure_witness :
  fs (run_two_files "in.csv" "/invalid/out.csv" two_files_world).2
  = fs two_files_world
  ∧ stdout (run_two_files "in.csv" "/invalid/out.csv" two_files_world).2
    = ["Data extraction successful."; "Data transformation successful.";
       "Error in data loading: [Errno 13] Permission denied: '/invalid/out.csv'"].
Proof.
  apply (etl_process_load_failure two_files_read_csv header_to_csv
           only_out_writable "in.csv" "/invalid/out.csv" two_files_world
           "sample" sample_dataframe sample_transformed
           (OSError "[Errno 13] Permission denied: '/invalid/out.csv'"));
    reflexivity.
Defined.

Lemma etl_process_other_files_witness :
  fs (run_two_files "in.csv" "out.csv" two_files_world).2 !! "in.csv"
  = Some "sample".
Proof.
  rewrite (etl_process_other_files two_files_read_csv header_to_csv
             only_out_writable "in.csv" "out.csv" two_files_world "in.csv").
  - reflexivity.
  - discriminate.
Defined.

Lemma transform_data_keeps_invariant_witness : wf_frame sample_transformed.
Proof.
  apply (transform_data_keeps_invariant (world_with sample_dataframe) 0
           sample_dataframe sample_transformed).
  - reflexivity.
  - exact wf_sample_dataframe.
  - reflexivity.
Defined.

Lemma transform_data_complete_input_witness :
  index sample_transformed = index sample_dataframe
  ∧ ∀ key, key ≠ "tax" → key ≠ "net_salary" →
      lookup_col key (columns sample_transformed)
      = lookup_col key (columns sample_dataframe).
Proof.
  apply (transform_data_complete_input (world_with sample_dataframe) 0
           sample_dataframe sample_transformed).
  - reflexivity.
  - exact wf_sample_dataframe.
  - intros i Hi. do 3 (destruct i as [|i]; [reflexivity|]).
    unfold nrows in Hi. simpl in Hi. lia.
  - reflexivity.
Defined.

Lemma transform_data_no_complete_row_witness :
  ∃ out,
    result_frame (transform_data 0 (world_with dropped_text_dataframe)) = Some out
    ∧ nrows out = 0
    ∧ "tax" ∈ names out ∧ "net_salary" ∈ names out.
Proof.
  apply (transform_data_no_complete_row (world_with dropped_text_dataframe) 0
           dropped_text_dataframe).
  - reflexivity.
  - wf_by_computation.
  - compute_done.
  - reflexivity.
Defined.

Lemma transform_data_fails_iff_witness :
  (transform_data 0 (world_with text_salary_dataframe)).1 = Ok None.
Proof.
  apply (transform_data_fails_iff (world_with text_salary_dataframe) 0
           text_salary_dataframe).
  - reflexivity.
  - exact wf_text_salary_dataframe.
  - right. exists [PStr "70000"; PStr "abc"], 1, (PStr "abc").
    split; [reflexivity|]. split; [compute_done|]. split; reflexivity.
Defined.

Lemma transform_data_dtypes_witness :
  ∃ salary tax net_salary,
    lookup_col "salary" (columns sample_dataframe) = Some salary
    ∧ lookup_col "tax" (columns sample_transformed) = Some tax
    ∧ lookup_col "net_salary" (columns sample_transformed) = Some net_salary
    ∧ dtype_of tax = promoted salary
    ∧ dtype_of net_salary = promoted salary.
Proof.
  apply (transform_data_dtypes (world_with sample_dataframe) 0
           sample_dataframe sample_transformed); reflexivity.
Defined.



(** With a directory that cannot be created the process ends with the
    error of [os.makedirs], before anything is printed. *)
Example main_denied_makedirs :
  main two_files_read_csv header_to_csv needs_directory posix_dirname
    denied_makedirs ∅ ∅ default_input_world
  = (Raise (OSError "[Errno 13] Permission denied: 'output'"),
     (∅, default_input_world)).
Proof. reflexivity. Qed.

(** The columns that come from the input hold no missing value in the
    returned frame: every cell of a column other than [tax] and
    [net_salary] is neither [None] nor NaN. *)
Theorem transform_data_no_missing w data df out key j o :
  heap w !! data = Some df →
  wf_frame df →
  result_frame (transform_data data w) = Some out →
  key ≠ "tax" → key ≠ "net_salary" →
  cell out key j = Some o →
  isna o = false.
Proof.
  intros Hdf Hwf Hout Htax Hnet Hcell.
  apply (transform_data_frame_inv w data df out Hdf) in Hout.
  apply derive_inv in Hout as (salary & tax & net & _ & _ & _ & ->).
  rewrite !cell_setitem_ne in Hcell by done.
  rewrite (cell_dropna df Hwf) in Hcell.
  destruct (complete_rows df !! j) as [i|] eqn:Hi; [|done].
  simpl in Hcell. unfold cell in Hcell.
  destruct (lookup_col key (columns df)) as [c|] eqn:Hc; [|done].
  simpl in Hcell.
  apply list_elem_of_lookup_2, list_elem_of_filter in Hi as [Hp _].
  apply (present_cell df i key c o); [by apply Is_true_true|done..].
Qed.

Lemma transform_data_no_missing_witness : isna (PStr "John") = false.
Proof.
  apply (transform_data_no_missing (world_with missing_dataframe) 0
           missing_dataframe
           {| index := [0]%Z;
              columns :=
                [("id", Int64 [1]%Z); ("name", Object [PStr "John"]);
                 ("age", Float64 [28]%float);
                 ("city", Object [PStr "New York"]);
                 ("salary", Int64 [70000]%Z); ("tax", Float64 [7000]%float);
                 ("net_salary", Float64 [63000]%float)] |}
           "name" 0 (PStr "John")).
  - reflexivity.
  - exact wf_missing_dataframe.
  - reflexivity.
  - discriminate.
  - discriminate.
  - reflexivity.
Defined.
